(** * hat_tryon: head-pose extraction and smoothed hat transform

    A shallow embedding of the pose pipeline of the virtual hat try-on
    application: [Utils] (js/utils.js), [MediaPipeHandler] and
    [HatTryOnApp] (the face-mesh handler and the orchestration module)
    and [HatRenderer] (js/hat-renderer.js).

    Numbers.  A JavaScript number is idealised as a real number: the
    arithmetic of the source ([+], [-], [*], [/], [Math.sqrt],
    [Math.atan2], [Math.PI]) is read in [R], so rounding, signed zeros,
    infinities and NaN are outside the model.  Where the rounding of
    doubles decides a property, the module [Double] reads the same
    expression on binary64 values, which compute.

    Absence.  [null] and [undefined] are kept apart from numbers and
    objects by the type [jsval]; reading a property of [undefined]
    raises [TypeError], which the model threads through [outcome].

    Time and the outside.  [performance.now()], the turns in which the
    runtime runs timers, the answers of the tracker and of the camera,
    and the pointer events of the page are arguments of the functions
    that depend on them. *)

From Stdlib Require Import Floats.
From Stdlib Require Import Reals Lra Psatz List Bool Arith Lia.
Import ListNotations.

Open Scope R_scope.

(** ** JavaScript values and exceptions *)

(** A value that may be [null] or [undefined] instead of an [A]. *)
Inductive jsval (A : Type) : Type :=
| Null
| Undefined
| Val (a : A).

Arguments Null {A}.
Arguments Undefined {A}.
Arguments Val {A} a.

(** [v === null || v === undefined] *)
Definition nullish {A} (v : jsval A) : bool :=
  match v with
  | Null | Undefined => true
  | Val _ => false
  end.

(** [a || b] on numbers: [0] is the only falsy real. *)
Definition js_or (a b : R) : R :=
  if Req_dec_T a 0 then b else a.

(** [Math.round(x)]: the integer nearest to [x], a half rounding up. *)
Definition js_round (x : R) : Z := Int_part (x + / 2).

(** [Math.abs(x)] *)
Definition js_abs (x : R) : R := Rabs x.

(** [!x] for a number [x]: [0] is the only falsy real. *)
Definition js_not (x : R) : bool :=
  if Req_dec_T x 0 then true else false.

(** [a <= b] as a boolean. *)
Definition js_le (a b : R) : bool :=
  if Rle_dec a b then true else false.

(** [a < b] as a boolean. *)
Definition js_lt (a b : R) : bool :=
  if Rlt_dec a b then true else false.

Inductive js_error : Type :=
| TypeError.

(** The result of a call that may throw. *)
Inductive outcome (A : Type) : Type :=
| Ok (a : A)
| Throw (e : js_error).

Arguments Ok {A} a.
Arguments Throw {A} e.

Definition bind {A B} (m : outcome A) (k : A -> outcome B) : outcome B :=
  match m with
  | Ok a => k a
  | Throw e => Throw e
  end.

Notation "x <- m ;; k" := (bind m (fun x => k))
  (at level 61, m at next level, right associativity).

(** [o.field] where [o] came out of an array lookup: [undefined.field]
    throws. *)
Definition deref {A} (o : option A) : outcome A :=
  match o with
  | Some a => Ok a
  | None => Throw TypeError
  end.

(** [Math.atan2(y, x)] on reals, with the quadrant conventions of the
    language: the result lies in (-PI, PI], and [atan2(0, 0)] is [0]. *)
Definition atan2 (y x : R) : R :=
  if Rlt_dec 0 x then atan (y / x)
  else if Rlt_dec x 0 then
    if Rle_dec 0 y then atan (y / x) + PI else atan (y / x) - PI
  else if Rlt_dec 0 y then PI / 2
  else if Rlt_dec y 0 then - PI / 2
  else 0.

(** ** Data *)

(** [{x, y, z}]: a landmark of the tracker, a scene position, or a
    triple of Euler angles. *)
Record Vec3 : Type := mkVec3 { vx : R; vy : R; vz : R }.

Definition Landmark : Type := Vec3.

(** ** js/utils.js *)

Module Utils.

(** The default of the [factor] parameter of both smoothers, taken when
    the argument is left out; every call of the source passes it. *)
Definition default_factor : R := 0.5.

Definition smooth (current : R) (previous : jsval R) (factor : R) : R :=
  match previous with
  | Null => current                      (* previous === null *)
  | Undefined => current                 (* previous === undefined *)
  | Val p => p * factor + current * (1 - factor)
  end.

(** [previous] is a vector object or absent, so [!previous] holds
    exactly for [null] and [undefined]; the fields of a vector are
    numbers. *)
Definition smooth3D (current : Vec3) (previous : jsval Vec3) (factor : R)
  : Vec3 :=
  match previous with
  | Null | Undefined => current          (* !previous *)
  | Val p =>
      {| vx := smooth (vx current) (Val (vx p)) factor;
         vy := smooth (vy current) (Val (vy p)) factor;
         vz := smooth (vz current) (Val (vz p)) factor |}
  end.

Definition distance3D (p1 p2 : Vec3) : R :=
  let dx := vx p2 - vx p1 in
  let dy := vy p2 - vy p1 in
  let dz := js_or (vz p2) 0 - js_or (vz p1) 0 in
  sqrt (dx * dx + dy * dy + dz * dz).

Definition clamp (value min max : R) : R :=
  Rmin (Rmax value min) max.

(** The class [Utils.FPSCounter].  [performance.now()] is an argument of
    the constructor and of [tick]; [frames] counts calls and [fps] holds
    a rounded value. *)
Module FPSCounter.

Record t : Type :=
  mkCounter {
      frames : nat;
      lastTime : R;
      fps : Z;
      updateInterval : R
    }.

Definition default_updateInterval : R := 500.

Definition constructor (updateInterval now : R) : t :=
  {| frames := 0; lastTime := now; fps := 0;
     updateInterval := updateInterval |}.

(** [tick()] at time [now]: the returned flag and the counter after
    the call. *)
Definition tick (now : R) (c : t) : bool * t :=
  let frames' := S (frames c) in
  let delta := now - lastTime c in
  if Rle_dec (updateInterval c) delta then       (* delta >= updateInterval *)
    (true,
      {| frames := 0;
         lastTime := now;
         fps := js_round (INR frames' * 1000 / delta);
         updateInterval := updateInterval c |})
  else
    (false,
      {| frames := frames';
         lastTime := lastTime c;
         fps := fps c;
         updateInterval := updateInterval c |}).

Definition getFPS (c : t) : Z := fps c.

(** The counter after a [tick] at each of [times], in order. *)
Definition ticks (times : list R) (c : t) : t :=
  fold_left (fun c now => snd (tick now c)) times c.

End FPSCounter.

(** [Utils.debounce(func, wait)]: the closure variable [timeout] of the
    returned function, together with what it needs of the runtime: the
    table of timers the function has set and that are still pending, the
    next timer id of the runtime, and the log of the calls of [func],
    each with the time it ran at. *)
Module Debounce.

Record timer (A : Type) : Type :=
  mkTimer { id : nat; due : R; args : A }.

Arguments mkTimer {A} id due args.
Arguments id {A} t.
Arguments due {A} t.
Arguments args {A} t.

Record t (A : Type) : Type :=
  mkDebounce {
      timeout : jsval nat;
      timers : list (timer A);
      next_id : nat;
      calls : list (R * A)
    }.

Arguments mkDebounce {A} timeout timers next_id calls.
Arguments timeout {A} t.
Arguments timers {A} t.
Arguments next_id {A} t.
Arguments calls {A} t.

(** [debounce(func, wait)] when the runtime would give [first_id] to
    the next timer: [let timeout;] and nothing pending. *)
Definition create {A} (first_id : nat) : t A :=
  {| timeout := Undefined; timers := []; next_id := first_id; calls := [] |}.

(** [clearTimeout(v)]: the timer named by [v] is taken out of the
    table; any other [v] does nothing. *)
Definition clearTimeout {A} (v : jsval nat) (pending : list (timer A))
  : list (timer A) :=
  match v with
  | Val i => filter (fun tm => negb (Nat.eqb (id tm) i)) pending
  | Null | Undefined => pending
  end.

(** A call of the returned function at time [now]. *)
Definition executedFunction {A} (wait now : R) (a : A) (d : t A) : t A :=
  let pending := clearTimeout (timeout d) (timers d) in
  let i := next_id d in
  {| timeout := Val i;
     timers := pending ++ [mkTimer i (now + wait) a];
     next_id := S i;
     calls := calls d |}.

(** The callback [later] of the timer [tm], run at time [now]. *)
Definition later {A} (now : R) (tm : timer A) (d : t A) : t A :=
  {| timeout := timeout d;
     timers := clearTimeout (timeout d) (timers d);
     next_id := next_id d;
     calls := calls d ++ [(now, args tm)] |}.

(** The runtime at time [now]: each timer that is due is taken out of
    the table and its callback is run, the oldest first. *)
Fixpoint run_due_aux {A} (fuel : nat) (now : R) (d : t A) : t A :=
  match fuel with
  | O => d
  | S fuel' =>
      match find (fun tm => js_le (due tm) now) (timers d) with
      | None => d
      | Some tm =>
          run_due_aux fuel' now
            (later now tm
               {| timeout := timeout d;
                  timers := filter (fun x => negb (Nat.eqb (id x) (id tm)))
                              (timers d);
                  next_id := next_id d;
                  calls := calls d |})
      end
  end.

Definition run_due {A} (now : R) (d : t A) : t A :=
  run_due_aux (length (timers d)) now d.

(** What happens to the debounced function: it is called, or the
    runtime gets to run timers. *)
Inductive event (A : Type) : Type :=
| Call (now : R) (a : A)
| Idle (now : R).

Arguments Call {A} now a.
Arguments Idle {A} now.

Definition step {A} (wait : R) (d : t A) (e : event A) : t A :=
  match e with
  | Call now a => executedFunction wait now a d
  | Idle now => run_due now d
  end.

Definition steps {A} (wait : R) (d : t A) (events : list (event A)) : t A :=
  fold_left (step wait) events d.

End Debounce.

End Utils.

(** ** js/utils.js on doubles *)

(** The scalar smoother with its numbers read as IEEE-754 binary64
    values: each operation rounds to the nearest double. *)
Module Double.

Definition smooth (current : float) (previous : jsval float)
  (factor : float) : float :=
  match previous with
  | Null => current                      (* previous === null *)
  | Undefined => current                 (* previous === undefined *)
  | Val p => (p * factor + current * (1 - factor))%float
  end.

End Double.

(** ** The face-mesh handler *)

Module MediaPipeHandler.

(** [this.landmarks]: the index of each anatomical role in the
    tracker's landmark array. *)
Module landmarks.
Definition noseTip : nat := 1.
Definition foreheadTop : nat := 10.
Definition chin : nat := 152.
Definition leftEye : nat := 33.
Definition rightEye : nat := 263.
Definition leftEar : nat := 234.
Definition rightEar : nat := 454.
Definition leftTemple : nat := 127.
Definition rightTemple : nat := 356.
End landmarks.

Record Rotation : Type :=
  mkRotation { pitch : R; yaw : R; roll : R }.

Record FaceData : Type :=
  mkFaceData {
      center : Vec3;
      headTop : Vec3;
      forehead : Vec3;
      faceWidth : R;
      rotation : Rotation
    }.

(** The object handed to [onResults]: [{ detected: false }] or
    [{ detected: true, ...faceData, rawLandmarks }]. *)
Inductive FaceResults : Type :=
| NoFace
| Face (faceData : FaceData) (rawLandmarks : list Landmark).

Definition detected (r : FaceResults) : bool :=
  match r with
  | NoFace => false
  | Face _ _ => true
  end.

(** [landmarks[i]] is [undefined] past the end of the array; the first
    property read of such an entry throws. *)
Definition calculateHeadRotation (lms : list Landmark) : outcome Rotation :=
  let noseTip := nth_error lms landmarks.noseTip in
  let forehead := nth_error lms landmarks.foreheadTop in
  let chin := nth_error lms landmarks.chin in
  let leftEye := nth_error lms landmarks.leftEye in
  let rightEye := nth_error lms landmarks.rightEye in
  leftEye <- deref leftEye ;;
  rightEye <- deref rightEye ;;
  let eyeCenter_x := (vx leftEye + vx rightEye) / 2 in
  let eyeCenter_z := (vz leftEye + vz rightEye) / 2 in
  noseTip <- deref noseTip ;;
  let yaw := atan2 (vz noseTip - eyeCenter_z) (vx noseTip - eyeCenter_x)
             - PI / 2 in
  chin <- deref chin ;;
  forehead <- deref forehead ;;
  let faceVertical := vy chin - vy forehead in
  let faceDepth := vz noseTip - ((vz forehead + vz chin) / 2) in
  let pitch := atan2 faceDepth faceVertical in
  let roll := atan2 (vy rightEye - vy leftEye) (vx rightEye - vx leftEye) in
  Ok {| pitch := pitch; yaw := yaw; roll := roll |}.

Definition extractFaceData (lms : list Landmark) : outcome FaceData :=
  let noseTip := nth_error lms landmarks.noseTip in
  let forehead := nth_error lms landmarks.foreheadTop in
  let chin := nth_error lms landmarks.chin in
  let leftEye := nth_error lms landmarks.leftEye in
  let rightEye := nth_error lms landmarks.rightEye in
  let leftTemple := nth_error lms landmarks.leftTemple in
  let rightTemple := nth_error lms landmarks.rightTemple in
  leftEye <- deref leftEye ;;
  rightEye <- deref rightEye ;;
  let faceCenter :=
    {| vx := (vx leftEye + vx rightEye) / 2;
       vy := (vy leftEye + vy rightEye) / 2;
       vz := (vz leftEye + vz rightEye) / 2 |} in
  forehead <- deref forehead ;;
  chin <- deref chin ;;
  let headTop :=
    {| vx := vx forehead;
       vy := vy forehead - (vy chin - vy forehead) * 0.3;
       vz := vz forehead |} in
  rightTemple <- deref rightTemple ;;
  leftTemple <- deref leftTemple ;;
  let faceWidth := Utils.distance3D leftTemple rightTemple in
  rotation <- calculateHeadRotation lms ;;
  Ok {| center := faceCenter;
        headTop := headTop;
        forehead := forehead;
        faceWidth := faceWidth;
        rotation := rotation |}.

(** The [results] object of the tracker. *)
Record Results : Type :=
  mkResults { multiFaceLandmarks : jsval (list (list Landmark)) }.

(** [processResults] either calls [onResults] with a value, which is
    the [Ok] case, or leaves by the exception of [extractFaceData]
    before [onResults] is reached. *)
Definition processResults (results : Results) : outcome FaceResults :=
  match multiFaceLandmarks results with
  | Null | Undefined => Ok NoFace        (* !results.multiFaceLandmarks *)
  | Val [] => Ok NoFace                  (* length === 0 *)
  | Val (lms :: _) =>
      faceData <- extractFaceData lms ;;
      Ok (Face faceData lms)
  end.

(** The handler's own state: the tracker object and the ready flag. *)
Record t : Type :=
  mkHandler {
      faceMesh : jsval unit;
      isReady : bool
    }.

Definition constructor : t := {| faceMesh := Null; isReady := false |}.

(** [init] up to its [await]: the tracker is constructed, configured
    and stored; when its construction throws, the [catch] is taken and
    nothing is stored. *)
Definition init_begin (constructed : bool) (h : t) : t :=
  if constructed then {| faceMesh := Val tt; isReady := isReady h |}
  else h.

(** [init] from its [await] on, with the boolean it returns: when
    [initialize] resolved the handler is marked ready, when it rejected
    the [catch] is taken. *)
Definition init_end (initialized : bool) (h : t) : t * bool :=
  if initialized then ({| faceMesh := faceMesh h; isReady := true |}, true)
  else (h, false).

(** A call of [init] during whose [await] the handler is left alone. *)
Definition init (constructed initialized : bool) (h : t) : t * bool :=
  if constructed then init_end initialized (init_begin true h)
  else (h, false).

(** [processFrame(video)]: [Ok false] when the guard returns first,
    [Ok true] when the frame was sent; [send] is what the tracker's
    [send] gives, and calling [send] on a tracker that is [null]
    throws. *)
Definition processFrame (h : t) (videoWidth : R) (send : outcome unit)
  : outcome bool :=
  if negb (isReady h) || js_not videoWidth then Ok false
  else
    match faceMesh h with
    | Val _ => bind send (fun _ => Ok true)
    | Null | Undefined => Throw TypeError
    end.

Definition destroy (h : t) : t :=
  match faceMesh h with
  | Val _ => {| faceMesh := Null; isReady := false |}
  | Null | Undefined => {| faceMesh := faceMesh h; isReady := false |}
  end.

(** The calls made on the handler, each [init] running to its end
    before the next call. *)
Inductive lifecycle : Type :=
| Init (constructed initialized : bool)
| Destroy.

Definition apply_lifecycle (h : t) (op : lifecycle) : t :=
  match op with
  | Init constructed initialized => fst (init constructed initialized h)
  | Destroy => destroy h
  end.

End MediaPipeHandler.

(** ** js/hat-renderer.js *)

Module HatRenderer.

Import MediaPipeHandler.

(** The part of the scene object [this.hat] that the renderer writes. *)
Record Hat : Type :=
  mkHat {
      visible : bool;
      position : Vec3;
      rotation : Vec3;
      scale : Vec3
    }.

(** [this.settings]; the field [scale] of the source is [s_scale]. *)
Record Settings : Type :=
  mkSettings {
      s_scale : R;
      yOffset : R;
      zOffset : R;
      smoothing : R
    }.

Record t : Type :=
  mkRenderer {
      hat : jsval Hat;
      hatLoaded : bool;
      smoothedPosition : jsval Vec3;
      smoothedRotation : jsval Vec3;
      smoothedScale : R;
      settings : Settings
    }.

(** The fields the constructor sets that take part in positioning. *)
Definition constructor : t :=
  {| hat := Null;
     hatLoaded := false;
     smoothedPosition := Null;
     smoothedRotation := Null;
     smoothedScale := 1;
     settings := {| s_scale := 1.0; yOffset := 0; zOffset := 0;
                    smoothing := 0.5 |} |}.

Definition zero3 : Vec3 := {| vx := 0; vy := 0; vz := 0 |}.

(** [v.set(x, y, z)] and [v.setScalar(s)] of the scene library. *)
Definition set3 (x y z : R) : Vec3 := {| vx := x; vy := y; vz := z |}.
Definition setScalar (s : R) : Vec3 := {| vx := s; vy := s; vz := s |}.

(** A fresh group of the scene library: visible, at the origin, scale 1. *)
Definition new_group : Hat :=
  {| visible := true; position := zero3; rotation := zero3;
     scale := setScalar 1 |}.

(** The effect of [createFallbackHat] on the renderer. *)
Definition createFallbackHat (r : t) : t :=
  {| hat := Val {| visible := false;
                   position := position new_group;
                   rotation := rotation new_group;
                   scale := scale new_group |};
     hatLoaded := true;
     smoothedPosition := smoothedPosition r;
     smoothedRotation := smoothedRotation r;
     smoothedScale := smoothedScale r;
     settings := settings r |}.

(** The effect of a successful [loadHat] on the renderer. *)
Definition loadHat_loaded (r : t) : t :=
  {| hat := Val {| visible := false;
                   position := position new_group;
                   rotation := rotation new_group;
                   scale := set3 0.3 0.3 0.3 |};
     hatLoaded := true;
     smoothedPosition := smoothedPosition r;
     smoothedRotation := smoothedRotation r;
     smoothedScale := smoothedScale r;
     settings := settings r |}.

(** [newSettings] of [updateSettings]: the fields it carries. *)
Record SettingsPatch : Type :=
  mkPatch {
      p_scale : option R;
      p_yOffset : option R;
      p_zOffset : option R;
      p_smoothing : option R
    }.

Definition assign (old : R) (new : option R) : R :=
  match new with
  | Some v => v
  | None => old
  end.

Definition updateSettings (r : t) (newSettings : SettingsPatch) : t :=
  {| hat := hat r;
     hatLoaded := hatLoaded r;
     smoothedPosition := smoothedPosition r;
     smoothedRotation := smoothedRotation r;
     smoothedScale := smoothedScale r;
     settings :=
       {| s_scale := assign (s_scale (settings r)) (p_scale newSettings);
          yOffset := assign (yOffset (settings r)) (p_yOffset newSettings);
          zOffset := assign (zOffset (settings r)) (p_zOffset newSettings);
          smoothing :=
            assign (smoothing (settings r)) (p_smoothing newSettings) |} |}.

Definition with_visible (h : Hat) (b : bool) : Hat :=
  {| visible := b; position := position h; rotation := rotation h;
     scale := scale h |}.

Definition updateHatPosition (r : t) (faceData : FaceResults) : t :=
  match hat r with
  | Null | Undefined => r                          (* !this.hat *)
  | Val h =>
      if negb (hatLoaded r) then r                 (* !this.hatLoaded *)
      else
        match faceData with
        | NoFace =>                                (* !faceData.detected *)
            {| hat := Val (with_visible h false);
               hatLoaded := hatLoaded r;
               smoothedPosition := smoothedPosition r;
               smoothedRotation := smoothedRotation r;
               smoothedScale := smoothedScale r;
               settings := settings r |}
        | Face fd _ =>
            let smoothing := smoothing (settings r) in
            let sceneX := - (vx (forehead fd) - 0.5) * 2 in
            let sceneY := - (vy (forehead fd) - 0.5) * 2 in
            let targetPosition :=
              {| vx := sceneX;
                 vy := sceneY + yOffset (settings r) / 100;
                 vz := vz (forehead fd) * 2 + zOffset (settings r) / 100 |} in
            let smoothedPosition' :=
              Utils.smooth3D targetPosition (smoothedPosition r) smoothing in
            let targetRotation :=
              {| vx := pitch (MediaPipeHandler.rotation fd) * 0.5;
                 vy := - yaw (MediaPipeHandler.rotation fd) * 0.8;
                 vz := roll (MediaPipeHandler.rotation fd) |} in
            let smoothedRotation' :=
              Utils.smooth3D targetRotation (smoothedRotation r) smoothing in
            let baseScale := faceWidth fd * 3 * s_scale (settings r) in
            let smoothedScale' :=
              Utils.smooth baseScale (Val (smoothedScale r)) smoothing in
            {| hat :=
                 Val {| visible := true;
                        position := set3 (vx smoothedPosition')
                                         (vy smoothedPosition')
                                         (vz smoothedPosition');
                        rotation := set3 (vx smoothedRotation')
                                         (vy smoothedRotation')
                                         (vz smoothedRotation');
                        scale := setScalar smoothedScale' |};
               hatLoaded := hatLoaded r;
               smoothedPosition := Val smoothedPosition';
               smoothedRotation := Val smoothedRotation';
               smoothedScale := smoothedScale';
               settings := settings r |}
        end
  end.

(** The orthographic camera: the fields [init] and [resize] set.  A
    canvas of height 0 is outside the model, which has no quotient by
    zero. *)
Record Camera : Type :=
  mkCamera {
      left : R;
      right : R;
      top : R;
      bottom : R;
      near : R;
      far : R
    }.

(** The camera [init] makes for a canvas of the given size. *)
Definition init_camera (canvas_width canvas_height : R) : Camera :=
  let aspect := js_or (canvas_width / canvas_height) (16 / 9) in
  let frustumSize := 2 in
  {| left := (- frustumSize * aspect) / 2;
     right := (frustumSize * aspect) / 2;
     top := frustumSize / 2;
     bottom := - frustumSize / 2;
     near := 0.1;
     far := 1000 |}.

(** The camera after [resize(width, height)]. *)
Definition resize (camera : Camera) (width height : R) : Camera :=
  let aspect := width / height in
  let frustumSize := 2 in
  {| left := (- frustumSize * aspect) / 2;
     right := (frustumSize * aspect) / 2;
     top := frustumSize / 2;
     bottom := - frustumSize / 2;
     near := near camera;
     far := far camera |}.

(** The effect of [destroy] on the fields of a renderer that went
    through [init]: the hat is dropped, [hatLoaded] keeps its value. *)
Definition destroy (r : t) : t :=
  {| hat := Null;
     hatLoaded := hatLoaded r;
     smoothedPosition := smoothedPosition r;
     smoothedRotation := smoothedRotation r;
     smoothedScale := smoothedScale r;
     settings := settings r |}.

End HatRenderer.

(** ** The orchestration module *)

Module HatTryOnApp.

Import MediaPipeHandler.

Record t : Type :=
  mkApp {
      isRunning : bool;
      currentFaceData : jsval FaceResults;
      hatRenderer : HatRenderer.t
    }.

(** The application once [init] has run: the renderer is constructed and
    a hat is in the scene, the fallback one here; no frame was seen. *)
Definition init : t :=
  {| isRunning := false;
     currentFaceData := Null;
     hatRenderer := HatRenderer.createFallbackHat HatRenderer.constructor |}.

(** The state in which [startCamera] enters [renderLoop] once the
    camera is granted: the loop flag is up.  The resize of the canvas
    before it acts on the camera of the renderer, and the runs of the
    loop that follow are [renderLoop] below. *)
Definition startCamera (app : t) : t :=
  {| isRunning := true;
     currentFaceData := currentFaceData app;
     hatRenderer := hatRenderer app |}.

Definition onFaceResults (app : t) (faceData : FaceResults) : t :=
  {| isRunning := isRunning app;
     currentFaceData := Val faceData;
     hatRenderer := hatRenderer app |}.

(** What the external tracker does while [processFrame] is awaited:
    nothing (the handler is not ready, the video has no width), or it
    calls the results listener once. *)
Inductive tracker_event : Type :=
| Silent
| Delivers (results : Results).

(** What the external tracker does with an exception of its results
    listener: it lets [send] fail with it, or it drops it.  The source
    installs no handler of its own on this path. *)
Inductive listener_policy : Type :=
| Rethrows
| Swallows.

(** [await this.mediaPipe.processFrame(this.video)] *)
Definition processFrame (policy : listener_policy) (ev : tracker_event)
  (app : t) : outcome t :=
  match ev with
  | Silent => Ok app
  | Delivers results =>
      match processResults results with
      | Ok faceData => Ok (onFaceResults app faceData)
      | Throw e =>
          match policy with
          | Rethrows => Throw e
          | Swallows => Ok app
          end
      end
  end.

(** How one run of [renderLoop] ends. *)
Inductive loop_end : Type :=
| Returned (app : t)       (* not running: nothing scheduled *)
| Rescheduled (app : t)    (* requestAnimationFrame(this.renderLoop) *)
| Rejected (e : js_error). (* the async function failed: nothing scheduled *)

(** One run of [renderLoop]; drawing and the frame counter leave the
    modelled state alone. *)
Definition renderLoop (policy : listener_policy) (ev : tracker_event)
  (app : t) : loop_end :=
  if negb (isRunning app) then Returned app
  else
    match processFrame policy ev app with
    | Throw e => Rejected e
    | Ok app1 =>
        Rescheduled
          match currentFaceData app1 with
          | Val faceData =>
              {| isRunning := isRunning app1;
                 currentFaceData := currentFaceData app1;
                 hatRenderer :=
                   HatRenderer.updateHatPosition (hatRenderer app1) faceData |}
          | Null | Undefined => app1
          end
    end.

(** The hat is in the scene and hidden after this run of the loop, and
    the loop goes on. *)
Definition hidden_and_running (e : loop_end) : bool :=
  match e with
  | Rescheduled app =>
      match HatRenderer.hat (hatRenderer app) with
      | Val h => negb (HatRenderer.visible h)
      | Null | Undefined => false
      end
  | Returned _ | Rejected _ => false
  end.

(** The loop over the frames of [events]: a run of [renderLoop] that
    ends with [requestAnimationFrame] is followed by the next one. *)
Fixpoint run (policy : listener_policy) (events : list tracker_event)
  (app : t) : loop_end :=
  match events with
  | [] => Rescheduled app
  | ev :: events' =>
      match renderLoop policy ev app with
      | Rescheduled app' => run policy events' app'
      | Returned app' => Returned app'
      | Rejected e => Rejected e
      end
  end.

(** The state of [setupDragHandle]: its three local variables and the
    class [collapsed] of the controls panel. *)
Module DragHandle.

Record t : Type :=
  mkDrag {
      startY : R;
      currentY : R;
      isDragging : bool;
      collapsed : bool
    }.

(** The locals as [setupDragHandle] initialises them. *)
Definition setup (collapsed : bool) : t :=
  {| startY := 0; currentY := 0; isDragging := false;
     collapsed := collapsed |}.

(** [onStart] for a pointer at height [clientY]. *)
Definition onStart (clientY : R) (d : t) : t :=
  {| startY := clientY; currentY := currentY d; isDragging := true;
     collapsed := collapsed d |}.

Definition onMove (clientY : R) (d : t) : t :=
  if negb (isDragging d) then d
  else {| startY := startY d; currentY := clientY;
          isDragging := isDragging d; collapsed := collapsed d |}.

Definition onEnd (d : t) : t :=
  if negb (isDragging d) then d
  else
    let deltaY := currentY d - startY d in
    let threshold := 50 in
    {| startY := startY d;
       currentY := currentY d;
       isDragging := false;
       collapsed :=
         if js_lt threshold (js_abs deltaY) then
           if js_lt 0 deltaY && negb (collapsed d) then true
           else if js_lt deltaY 0 && collapsed d then false
           else collapsed d
         else collapsed d |}.

(** The click listener of the handle. *)
Definition onClick (d : t) : t :=
  if js_lt (js_abs (currentY d - startY d)) 5 then
    {| startY := startY d; currentY := currentY d;
       isDragging := isDragging d; collapsed := negb (collapsed d) |}
  else d.

Inductive event : Type :=
| Start (clientY : R)
| Move (clientY : R)
| End_
| Click.

Definition handle (d : t) (e : event) : t :=
  match e with
  | Start y => onStart y d
  | Move y => onMove y d
  | End_ => onEnd d
  | Click => onClick d
  end.

Definition handle_all (d : t) (events : list event) : t :=
  fold_left handle events d.

End DragHandle.

End HatTryOnApp.

(** ** Roles and readiness *)

(** The roles [extractFaceData] reads. *)
Definition required_roles : list nat :=
  [ MediaPipeHandler.landmarks.noseTip;
    MediaPipeHandler.landmarks.foreheadTop;
    MediaPipeHandler.landmarks.chin;
    MediaPipeHandler.landmarks.leftEye;
    MediaPipeHandler.landmarks.rightEye;
    MediaPipeHandler.landmarks.leftTemple;
    MediaPipeHandler.landmarks.rightTemple ].

(** Some required role has no landmark in [lms]. *)
Definition missing_role (lms : list Landmark) : Prop :=
  exists i, In i required_roles /\ nth_error lms i = None.

(** Every landmark of [required_roles] is in the array. *)
Definition complete (lms : list Landmark) : Prop :=
  forall i, In i required_roles -> exists l, nth_error lms i = Some l.

(** The renderer holds a loaded hat: [this.hat && this.hatLoaded]. *)
Definition ready (r : HatRenderer.t) : bool :=
  match HatRenderer.hat r with
  | Val _ => HatRenderer.hatLoaded r
  | Null | Undefined => false
  end.

(** The smoothed state as the constructor leaves it. *)
Definition startup (r : HatRenderer.t) : Prop :=
  HatRenderer.smoothedPosition r = Null /\
  HatRenderer.smoothedRotation r = Null /\
  HatRenderer.smoothedScale r = 1.

(** A landmark array of [n] entries with the given landmarks at the
    roles' indices and [other] everywhere else. *)
Definition face_landmarks (n : nat)
  (noseTip forehead chin leftEye rightEye leftTemple rightTemple
     other : Landmark) : list Landmark :=
  map (fun i =>
         if Nat.eqb i MediaPipeHandler.landmarks.noseTip then noseTip
         else if Nat.eqb i MediaPipeHandler.landmarks.foreheadTop then forehead
         else if Nat.eqb i MediaPipeHandler.landmarks.chin then chin
         else if Nat.eqb i MediaPipeHandler.landmarks.leftEye then leftEye
         else if Nat.eqb i MediaPipeHandler.landmarks.rightEye then rightEye
         else if Nat.eqb i MediaPipeHandler.landmarks.leftTemple then leftTemple
         else if Nat.eqb i MediaPipeHandler.landmarks.rightTemple
              then rightTemple
         else other)
      (seq 0 n).

(** ** Concrete frames *)

(** The upright face of the specification's scenario A, as an array of
    478 landmarks. *)
Definition scenarioA : list Landmark :=
  face_landmarks 478
    (mkVec3 0.5 0.45 0.05)   (* nose tip *)
    (mkVec3 0.5 0.3 0)       (* forehead *)
    (mkVec3 0.5 0.6 0)       (* chin *)
    (mkVec3 0.4 0.4 0)       (* left eye *)
    (mkVec3 0.6 0.4 0)       (* right eye *)
    (mkVec3 0.3 0.4 0)       (* left temple *)
    (mkVec3 0.7 0.4 0)       (* right temple *)
    (mkVec3 0 0 0).

(** The same face with the two eye landmarks exchanged: level eyes, the
    right-eye landmark to the left of the left-eye one. *)
Definition eyes_reversed : list Landmark :=
  face_landmarks 478
    (mkVec3 0.5 0.45 0.05)
    (mkVec3 0.5 0.3 0)
    (mkVec3 0.5 0.6 0)
    (mkVec3 0.6 0.4 0)
    (mkVec3 0.4 0.4 0)
    (mkVec3 0.3 0.4 0)
    (mkVec3 0.7 0.4 0)
    (mkVec3 0 0 0).

(** Scenario A with the two temple landmarks exchanged. *)
Definition temples_swapped : list Landmark :=
  face_landmarks 478
    (mkVec3 0.5 0.45 0.05)
    (mkVec3 0.5 0.3 0)
    (mkVec3 0.5 0.6 0)
    (mkVec3 0.4 0.4 0)
    (mkVec3 0.6 0.4 0)
    (mkVec3 0.7 0.4 0)
    (mkVec3 0.3 0.4 0)
    (mkVec3 0 0 0).

(** A face whose nose tip lies behind and to the left of the eye line. *)
Definition turned_away : list Landmark :=
  face_landmarks 478
    (mkVec3 0.25 0.45 (-0.25))
    (mkVec3 0.5 0.3 0)
    (mkVec3 0.5 0.6 0)
    (mkVec3 0.4 0.4 0)
    (mkVec3 0.6 0.4 0)
    (mkVec3 0.3 0.4 0)
    (mkVec3 0.7 0.4 0)
    (mkVec3 0 0 0).

(** An array the tracker reports as a face that stops before the
    forehead landmark. *)
Definition truncated : list Landmark :=
  [ mkVec3 0.5 0.5 0; mkVec3 0.5 0.45 0.05 ].

(** What [extractFaceData] gives on [scenarioA]. *)
Definition faceDataA : MediaPipeHandler.FaceData :=
  {| MediaPipeHandler.center := mkVec3 0.5 0.4 0;
     MediaPipeHandler.headTop := mkVec3 0.5 0.21 0;
     MediaPipeHandler.forehead := mkVec3 0.5 0.3 0;
     MediaPipeHandler.faceWidth := 0.4;
     MediaPipeHandler.rotation :=
       {| MediaPipeHandler.pitch := atan2 0.05 0.3;
          MediaPipeHandler.yaw := 0;
          MediaPipeHandler.roll := 0 |} |}.

Definition frameA : MediaPipeHandler.FaceResults :=
  MediaPipeHandler.Face faceDataA scenarioA.

(** The renderer after its constructor and [createFallbackHat], with
    the settings of the constructor (smoothing 0.5). *)
Definition fresh_renderer : HatRenderer.t :=
  HatRenderer.createFallbackHat HatRenderer.constructor.

(** [fresh_renderer] after the user moved the smoothing slider. *)
Definition renderer_with_smoothing (k : R) : HatRenderer.t :=
  HatRenderer.updateSettings fresh_renderer
    {| HatRenderer.p_scale := None;
       HatRenderer.p_yOffset := None;
       HatRenderer.p_zOffset := None;
       HatRenderer.p_smoothing := Some k |}.

(** A renderer that has tracked one frame: [fresh_renderer] after
    [frameA]. *)
Definition tracking_renderer : HatRenderer.t :=
  HatRenderer.updateHatPosition fresh_renderer frameA.

(** The application with the camera started, after one run of the loop
    in which the tracker delivered [scenarioA]. *)
Definition tracking_app : HatTryOnApp.t :=
  {| HatTryOnApp.isRunning := true;
     HatTryOnApp.currentFaceData := Val frameA;
     HatTryOnApp.hatRenderer := tracking_renderer |}.

(** The tracker's results for a frame with one face, and with none. *)
Definition one_face (lms : list Landmark) : MediaPipeHandler.Results :=
  {| MediaPipeHandler.multiFaceLandmarks := Val [lms] |}.

Definition no_face : MediaPipeHandler.Results :=
  {| MediaPipeHandler.multiFaceLandmarks := Val [] |}.

(** ** Runs *)

(** The times of [n] frames that follow the time [t0] at a steady
    period [d]. *)
Definition steady (t0 d : R) (n : nat) : list R :=
  map (fun i => t0 + INR i * d) (seq 1 n).

(** The renderer after [updateHatPosition] on each of [frames], in
    order. *)
Definition track (r : HatRenderer.t)
  (frames : list MediaPipeHandler.FaceResults) : HatRenderer.t :=
  fold_left HatRenderer.updateHatPosition frames r.

(** The locals [targetPosition], [targetRotation] and [baseScale] of
    [updateHatPosition], as functions of the settings and the face
    data. *)
Definition targetPosition (s : HatRenderer.Settings)
  (fd : MediaPipeHandler.FaceData) : Vec3 :=
  {| vx := - (vx (MediaPipeHandler.forehead fd) - 0.5) * 2;
     vy := - (vy (MediaPipeHandler.forehead fd) - 0.5) * 2
           + HatRenderer.yOffset s / 100;
     vz := vz (MediaPipeHandler.forehead fd) * 2
           + HatRenderer.zOffset s / 100 |}.

Definition targetRotation (fd : MediaPipeHandler.FaceData) : Vec3 :=
  {| vx := MediaPipeHandler.pitch (MediaPipeHandler.rotation fd) * 0.5;
     vy := - MediaPipeHandler.yaw (MediaPipeHandler.rotation fd) * 0.8;
     vz := MediaPipeHandler.roll (MediaPipeHandler.rotation fd) |}.

Definition baseScale (s : HatRenderer.Settings)
  (fd : MediaPipeHandler.FaceData) : R :=
  MediaPipeHandler.faceWidth fd * 3 * HatRenderer.s_scale s.

(** The patch that has the effect of [p] followed by [q]: a field of
    [q] wins over the same field of [p]. *)
Definition merge_patch (p q : HatRenderer.SettingsPatch)
  : HatRenderer.SettingsPatch :=
  let pick (a b : option R) :=
    match b with
    | Some v => Some v
    | None => a
    end in
  {| HatRenderer.p_scale :=
       pick (HatRenderer.p_scale p) (HatRenderer.p_scale q);
     HatRenderer.p_yOffset :=
       pick (HatRenderer.p_yOffset p) (HatRenderer.p_yOffset q);
     HatRenderer.p_zOffset :=
       pick (HatRenderer.p_zOffset p) (HatRenderer.p_zOffset q);
     HatRenderer.p_smoothing :=
       pick (HatRenderer.p_smoothing p) (HatRenderer.p_smoothing q) |}.

(** The point of the scene lies within [-1, 1] across and up. *)
Definition in_square (p : Vec3) : Prop :=
  -1 <= vx p <= 1 /\ -1 <= vy p <= 1.

(** The point of the scene lies between the left and right planes and
    between the bottom and top planes of the camera. *)
Definition in_view (c : HatRenderer.Camera) (p : Vec3) : Prop :=
  HatRenderer.left c <= vx p <= HatRenderer.right c /\
  HatRenderer.bottom c <= vy p <= HatRenderer.top c.

(** Where a drag that ends [delta] below its start leaves the class
    [collapsed] of the panel: more than 50 down collapses, more than 50
    up expands, anything else keeps the panel as it is. *)
Definition drag_outcome (delta : R) (collapsed : bool) : bool :=
  if Rlt_dec 50 delta then true
  else if Rlt_dec delta (-50) then false
  else collapsed.

(** A press at [y0], moves through [ys] and a release. *)
Definition gesture (y0 : R) (ys : list R)
  : list HatTryOnApp.DragHandle.event :=
  HatTryOnApp.DragHandle.Start y0
    :: map HatTryOnApp.DragHandle.Move ys ++ [HatTryOnApp.DragHandle.End_].

(** The face data the application holds, if any, has a width that is
    not negative. *)
Definition width_not_negative (f : jsval MediaPipeHandler.FaceResults)
  : Prop :=
  forall fd raw,
    f = Val (MediaPipeHandler.Face fd raw) ->
    0 <= MediaPipeHandler.faceWidth fd.

(** What the loop keeps true: a scale setting and a stored scale that
    are not negative, a smoothing setting in [0,1], a hat whose scale is
    not negative, and face data of a width that is not negative. *)
Definition scale_invariant (app : HatTryOnApp.t) : Prop :=
  let r := HatTryOnApp.hatRenderer app in
  0 <= HatRenderer.s_scale (HatRenderer.settings r) /\
  0 <= HatRenderer.smoothing (HatRenderer.settings r) <= 1 /\
  0 <= HatRenderer.smoothedScale r /\
  (forall h, HatRenderer.hat r = Val h -> 0 <= vx (HatRenderer.scale h)) /\
  width_not_negative (HatTryOnApp.currentFaceData app).

(** At most one timer of the debounced function is pending, and it is
    the one its variable [timeout] names. *)
Definition one_timer {A} (d : Utils.Debounce.t A) : Prop :=
  Utils.Debounce.timers d = [] \/
  exists tm,
    Utils.Debounce.timers d = [tm] /\
    Utils.Debounce.timeout d = Val (Utils.Debounce.id tm).

(** * Properties *)

(** ** The smoothing filter *)

Lemma js_or_zero (z : R) : js_or z 0 = z.
Proof.
  unfold js_or. destruct (Req_dec_T z 0) as [E | _]; [now rewrite E | reflexivity].
Qed.

Lemma smooth_absent (current factor : R) (previous : jsval R) :
  nullish previous = true -> Utils.smooth current previous factor = current.
Proof. destruct previous; simpl; [reflexivity | reflexivity | discriminate]. Qed.

Lemma smooth_present (current previous factor : R) :
  Utils.smooth current (Val previous) factor
  = previous * factor + current * (1 - factor).
Proof. reflexivity. Qed.

(** C3.  The scalar smoother returns [current] when [previous] is
    [null] or [undefined] and [previous * factor + current * (1 - factor)]
    otherwise, so that factor 0 gives [current]; the formula is applied
    to any real factor, also outside [0,1], where the result leaves the
    interval of its two inputs; the vector smoother is the scalar one on
    each of x, y and z, and returns [current] when [previous] is absent. *)
Theorem smooth_contract (factor : R) :
  (forall current,
      Utils.smooth current Null factor = current /\
      Utils.smooth current Undefined factor = current) /\
  (forall current previous,
      Utils.smooth current (Val previous) factor
      = previous * factor + current * (1 - factor)) /\
  (forall current previous, Utils.smooth current (Val previous) 0 = current) /\
  Utils.smooth 1 (Val 0) 2 = -1 /\
  Utils.smooth 1 (Val 0) (-1) = 2 /\
  (forall current previous,
      Utils.smooth3D current (Val previous) factor
      = {| vx := Utils.smooth (vx current) (Val (vx previous)) factor;
           vy := Utils.smooth (vy current) (Val (vy previous)) factor;
           vz := Utils.smooth (vz current) (Val (vz previous)) factor |}) /\
  (forall current,
      Utils.smooth3D current Null factor = current /\
      Utils.smooth3D current Undefined factor = current).
Proof.
  repeat split; intros; rewrite ?smooth_present; try reflexivity; lra.
Qed.




(** C10.  A previous value of 0 is present: the smoother blends it,
    giving [current * (1 - factor)], which differs from [current] in
    general; the smoother returns [current] whatever the inputs exactly
    when [previous] is [null] or [undefined]. *)
Theorem smooth_zero_is_present :
  (forall current factor,
      Utils.smooth current (Val 0) factor = current * (1 - factor)) /\
  Utils.smooth 1 (Val 0) 0.5 <> 1 /\
  (forall previous : jsval R,
      (forall current factor,
          Utils.smooth current previous factor = current)
      <-> nullish previous = true).
Proof.
  split; [| split].
  - intros. rewrite smooth_present. ring.
  - rewrite smooth_present. lra.
  - intros previous. split.
    + destruct previous as [ | | p]; try reflexivity.
      intros H. specialize (H (p + 1) 1). rewrite smooth_present in H. lra.
    + intros H current factor. now apply smooth_absent.
Qed.

(** ** [Math.atan2] *)

Lemma atan2_zero_right (x : R) : 0 <= x -> atan2 0 x = 0.
Proof.
  intros Hx. unfold atan2.
  destruct (Rlt_dec 0 x) as [Hpos | Hnpos].
  - unfold Rdiv. rewrite Rmult_0_l. apply atan_0.
  - destruct (Rlt_dec x 0) as [Hneg | _]; [lra |].
    destruct (Rlt_dec 0 0) as [F | _]; [lra |].
    destruct (Rlt_dec 0 0) as [F | _]; [lra | reflexivity].
Qed.

Lemma atan2_zero_left (x : R) : x < 0 -> atan2 0 x = PI.
Proof.
  intros Hx. unfold atan2.
  destruct (Rlt_dec 0 x) as [Hpos | _]; [lra |].
  destruct (Rlt_dec x 0) as [_ | Hnneg]; [| lra].
  destruct (Rle_dec 0 0) as [_ | F]; [| lra].
  unfold Rdiv. rewrite Rmult_0_l, atan_0. ring.
Qed.

Lemma atan2_up (y : R) : 0 < y -> atan2 y 0 = PI / 2.
Proof.
  intros Hy. unfold atan2.
  destruct (Rlt_dec 0 0) as [F | _]; [lra |].
  destruct (Rlt_dec 0 0) as [F | _]; [lra |].
  destruct (Rlt_dec 0 y) as [_ | F]; [reflexivity | lra].
Qed.

Lemma atan_sign_neg (t : R) : t <= 0 -> atan t <= 0.
Proof.
  intros [Hlt | Heq].
  - left. rewrite <- atan_0. now apply atan_increasing.
  - rewrite Heq, atan_0. lra.
Qed.

Lemma atan_sign_pos (t : R) : 0 < t -> 0 < atan t.
Proof. intros H. rewrite <- atan_0. now apply atan_increasing. Qed.

(** The angle of [Math.atan2] lies in (-PI, PI]. *)
Lemma atan2_range (y x : R) : - PI < atan2 y x <= PI.
Proof.
  pose proof PI_RGT_0 as Hpi. unfold atan2.
  destruct (Rlt_dec 0 x) as [Hpos | Hnpos].
  - pose proof (atan_bound (y / x)). lra.
  - destruct (Rlt_dec x 0) as [Hneg | Hnneg].
    + pose proof (atan_bound (y / x)) as Hb.
      assert (Hinv : / x < 0) by now apply Rinv_lt_0_compat.
      destruct (Rle_dec 0 y) as [Hy | Hy].
      * assert (Hq : y / x <= 0) by (unfold Rdiv; nra).
        pose proof (atan_sign_neg _ Hq). lra.
      * assert (Hq : 0 < y / x) by (unfold Rdiv; nra).
        pose proof (atan_sign_pos _ Hq). lra.
    + destruct (Rlt_dec 0 y); [lra |].
      destruct (Rlt_dec y 0); lra.
Qed.

(** ** Pose extraction *)

Section Extraction.

Import MediaPipeHandler.

Variable lms : list Landmark.
Variables noseTip forehead chin leftEye rightEye : Landmark.

Hypothesis at_noseTip : nth_error lms landmarks.noseTip = Some noseTip.
Hypothesis at_forehead : nth_error lms landmarks.foreheadTop = Some forehead.
Hypothesis at_chin : nth_error lms landmarks.chin = Some chin.
Hypothesis at_leftEye : nth_error lms landmarks.leftEye = Some leftEye.
Hypothesis at_rightEye : nth_error lms landmarks.rightEye = Some rightEye.

Lemma calculateHeadRotation_present :
  calculateHeadRotation lms
  = Ok {| pitch := atan2 (vz noseTip - (vz forehead + vz chin) / 2)
                         (vy chin - vy forehead);
          yaw := atan2 (vz noseTip - (vz leftEye + vz rightEye) / 2)
                       (vx noseTip - (vx leftEye + vx rightEye) / 2)
                 - PI / 2;
          roll := atan2 (vy rightEye - vy leftEye)
                        (vx rightEye - vx leftEye) |}.
Proof.
  unfold calculateHeadRotation.
  rewrite at_noseTip, at_forehead, at_chin, at_leftEye, at_rightEye.
  reflexivity.
Qed.

Variables leftTemple rightTemple : Landmark.

Hypothesis at_leftTemple :
  nth_error lms landmarks.leftTemple = Some leftTemple.
Hypothesis at_rightTemple :
  nth_error lms landmarks.rightTemple = Some rightTemple.

Lemma extractFaceData_present :
  exists rot,
    calculateHeadRotation lms = Ok rot /\
    extractFaceData lms
    = Ok {| center := {| vx := (vx leftEye + vx rightEye) / 2;
                         vy := (vy leftEye + vy rightEye) / 2;
                         vz := (vz leftEye + vz rightEye) / 2 |};
            headTop := {| vx := vx forehead;
                          vy := vy forehead
                                - (vy chin - vy forehead) * 0.3;
                          vz := vz forehead |};
            MediaPipeHandler.forehead := forehead;
            faceWidth := Utils.distance3D leftTemple rightTemple;
            rotation := rot |}.
Proof.
  eexists. split; [apply calculateHeadRotation_present |].
  unfold extractFaceData.
  rewrite calculateHeadRotation_present.
  rewrite at_forehead, at_chin, at_leftEye, at_rightEye,
    at_leftTemple, at_rightTemple.
  reflexivity.
Qed.

End Extraction.

Lemma distance3D_euclid (p q : Vec3) :
  Utils.distance3D p q
  = sqrt ((vx q - vx p)² + (vy q - vy p)² + (vz q - vz p)²).
Proof.
  unfold Utils.distance3D, Rsqr. now rewrite !js_or_zero.
Qed.

Lemma distance3D_sym (p q : Vec3) :
  Utils.distance3D p q = Utils.distance3D q p.
Proof.
  rewrite !distance3D_euclid. f_equal. unfold Rsqr. ring.
Qed.

Lemma nth_error_face_landmarks (n i : nat) (a b c d e f g o : Landmark) :
  (i < n)%nat ->
  nth_error (face_landmarks n a b c d e f g o) i
  = Some (if Nat.eqb i MediaPipeHandler.landmarks.noseTip then a
          else if Nat.eqb i MediaPipeHandler.landmarks.foreheadTop then b
          else if Nat.eqb i MediaPipeHandler.landmarks.chin then c
          else if Nat.eqb i MediaPipeHandler.landmarks.leftEye then d
          else if Nat.eqb i MediaPipeHandler.landmarks.rightEye then e
          else if Nat.eqb i MediaPipeHandler.landmarks.leftTemple then f
          else if Nat.eqb i MediaPipeHandler.landmarks.rightTemple then g
          else o).
Proof.
  intros Hi. unfold face_landmarks.
  rewrite nth_error_map, nth_error_seq.
  apply Nat.ltb_lt in Hi. rewrite Hi. reflexivity.
Qed.

Ltac unfold_roles :=
  cbv [MediaPipeHandler.landmarks.noseTip
       MediaPipeHandler.landmarks.foreheadTop
       MediaPipeHandler.landmarks.chin
       MediaPipeHandler.landmarks.leftEye
       MediaPipeHandler.landmarks.rightEye
       MediaPipeHandler.landmarks.leftTemple
       MediaPipeHandler.landmarks.rightTemple].

(** Looks a role up in an array built by [face_landmarks]. *)
Ltac role_lookup :=
  rewrite nth_error_face_landmarks
    by (unfold_roles; apply Nat.ltb_lt; reflexivity);
  unfold_roles; cbv [Nat.eqb]; reflexivity.

(** C6.  With the required roles in the array, the rotation is
    yaw = atan2(noseTip.z - eyeCenter.z, noseTip.x - eyeCenter.x) - PI/2
    for the x/z midpoint eyeCenter of the eyes,
    pitch = atan2(noseTip.z - (forehead.z + chin.z)/2, chin.y - forehead.y)
    and roll = atan2(rightEye.y - leftEye.y, rightEye.x - leftEye.x), in
    radians as [Math.atan2] gives them: pitch and roll in (-PI, PI], and
    yaw, shifted and not wrapped back, in (-3PI/2, PI/2]. *)
Theorem rotation_formulas
  (lms : list Landmark)
  (noseTip forehead chin leftEye rightEye leftTemple rightTemple : Landmark) :
  nth_error lms MediaPipeHandler.landmarks.noseTip = Some noseTip ->
  nth_error lms MediaPipeHandler.landmarks.foreheadTop = Some forehead ->
  nth_error lms MediaPipeHandler.landmarks.chin = Some chin ->
  nth_error lms MediaPipeHandler.landmarks.leftEye = Some leftEye ->
  nth_error lms MediaPipeHandler.landmarks.rightEye = Some rightEye ->
  nth_error lms MediaPipeHandler.landmarks.leftTemple = Some leftTemple ->
  nth_error lms MediaPipeHandler.landmarks.rightTemple = Some rightTemple ->
  let eyeCenter_x := (vx leftEye + vx rightEye) / 2 in
  let eyeCenter_z := (vz leftEye + vz rightEye) / 2 in
  let yaw := atan2 (vz noseTip - eyeCenter_z) (vx noseTip - eyeCenter_x)
             - PI / 2 in
  let pitch := atan2 (vz noseTip - (vz forehead + vz chin) / 2)
                     (vy chin - vy forehead) in
  let roll := atan2 (vy rightEye - vy leftEye) (vx rightEye - vx leftEye) in
  let rot := MediaPipeHandler.mkRotation pitch yaw roll in
  MediaPipeHandler.calculateHeadRotation lms = Ok rot /\
  (exists fd,
      MediaPipeHandler.extractFaceData lms = Ok fd /\
      MediaPipeHandler.rotation fd = rot) /\
  - PI < pitch <= PI /\
  - 3 * PI / 2 < yaw <= PI / 2 /\
  - PI < roll <= PI.
Proof.
  intros Hn Hf Hc Hl Hr Hlt Hrt eyeCenter_x eyeCenter_z yaw pitch roll rot.
  pose proof (calculateHeadRotation_present _ _ _ _ _ _ Hn Hf Hc Hl Hr) as Hrot.
  split; [exact Hrot |]. split.
  - destruct (extractFaceData_present _ _ _ _ _ _ Hn Hf Hc Hl Hr _ _ Hlt Hrt)
      as [rot' [Hrot' Hfd]].
    eexists. split; [exact Hfd |]. simpl.
    rewrite Hrot in Hrot'. now injection Hrot' as <-.
  - pose proof (atan2_range (vz noseTip - (vz forehead + vz chin) / 2)
                  (vy chin - vy forehead)).
    pose proof (atan2_range (vz noseTip - eyeCenter_z)
                  (vx noseTip - eyeCenter_x)).
    pose proof (atan2_range (vy rightEye - vy leftEye)
                  (vx rightEye - vx leftEye)).
    subst yaw pitch roll. repeat split; lra.
Qed.

Lemma rotation_formulas_witness :
  exists rot,
    MediaPipeHandler.calculateHeadRotation scenarioA = Ok rot /\
    MediaPipeHandler.roll rot = atan2 (0.4 - 0.4) (0.6 - 0.4).
Proof.
  destruct (rotation_formulas scenarioA
              (mkVec3 0.5 0.45 0.05) (mkVec3 0.5 0.3 0) (mkVec3 0.5 0.6 0)
              (mkVec3 0.4 0.4 0) (mkVec3 0.6 0.4 0)
              (mkVec3 0.3 0.4 0) (mkVec3 0.7 0.4 0))
    as [H _]; try (unfold scenarioA; role_lookup).
  eexists. split; [exact H | reflexivity].
Defined.

(** The yaw of a face turned away from the camera is below -PI: the
    shift by PI/2 is not followed by a wrap into (-PI, PI]. *)
Example yaw_turned_away :
  exists rot,
    MediaPipeHandler.calculateHeadRotation turned_away = Ok rot /\
    MediaPipeHandler.yaw rot = - 5 * PI / 4 /\
    MediaPipeHandler.yaw rot < - PI.
Proof.
  eexists. split.
  - apply calculateHeadRotation_present; unfold turned_away; role_lookup.
  - cbn [MediaPipeHandler.yaw vx vy vz].
    assert (E : atan2 (-0.25 - (0 + 0) / 2) (0.25 - (0.4 + 0.6) / 2)
                = - 3 * PI / 4).
    { replace (-0.25 - (0 + 0) / 2) with (-0.25) by lra.
      replace (0.25 - (0.4 + 0.6) / 2) with (-0.25) by lra.
      unfold atan2.
      destruct (Rlt_dec 0 (-0.25)) as [F | _]; [lra |].
      destruct (Rlt_dec (-0.25) 0) as [_ | F]; [| lra].
      destruct (Rle_dec 0 (-0.25)) as [F | _]; [lra |].
      replace (-0.25 / -0.25) with 1 by (field; lra).
      rewrite atan_1. field. }
    rewrite E. pose proof PI_RGT_0. split; lra.
Qed.

(** C7, as the code has it.  With level eyes the roll is 0 when the
    right-eye landmark is not to the left of the left-eye one, and PI
    when it is. *)
Theorem roll_level_eyes
  (lms : list Landmark)
  (noseTip forehead chin leftEye rightEye : Landmark) :
  nth_error lms MediaPipeHandler.landmarks.noseTip = Some noseTip ->
  nth_error lms MediaPipeHandler.landmarks.foreheadTop = Some forehead ->
  nth_error lms MediaPipeHandler.landmarks.chin = Some chin ->
  nth_error lms MediaPipeHandler.landmarks.leftEye = Some leftEye ->
  nth_error lms MediaPipeHandler.landmarks.rightEye = Some rightEye ->
  vy leftEye = vy rightEye ->
  exists rot,
    MediaPipeHandler.calculateHeadRotation lms = Ok rot /\
    (vx leftEye <= vx rightEye -> MediaPipeHandler.roll rot = 0) /\
    (vx rightEye < vx leftEye -> MediaPipeHandler.roll rot = PI).
Proof.
  intros Hn Hf Hc Hl Hr Hy.
  eexists. split.
  - exact (calculateHeadRotation_present _ _ _ _ _ _ Hn Hf Hc Hl Hr).
  - cbn [MediaPipeHandler.roll].
    replace (vy rightEye - vy leftEye) with 0 by lra.
    split; intros Hx.
    + apply atan2_zero_right. lra.
    + apply atan2_zero_left. lra.
Qed.

Lemma roll_level_eyes_witness :
  exists rot,
    MediaPipeHandler.calculateHeadRotation scenarioA = Ok rot /\
    MediaPipeHandler.roll rot = 0.
Proof.
  destruct (roll_level_eyes scenarioA
              (mkVec3 0.5 0.45 0.05) (mkVec3 0.5 0.3 0) (mkVec3 0.5 0.6 0)
              (mkVec3 0.4 0.4 0) (mkVec3 0.6 0.4 0))
    as [rot [H [Hzero _]]];
    try (unfold scenarioA; role_lookup); [reflexivity |].
  exists rot. split; [exact H |]. apply Hzero. cbn [vx]. lra.
Defined.

(** C7 fails where the eye landmarks are level and exchanged: the roll
    is PI. *)
Lemma roll_level_eyes_reversed :
  nth_error eyes_reversed MediaPipeHandler.landmarks.leftEye
  = Some (mkVec3 0.6 0.4 0) /\
  nth_error eyes_reversed MediaPipeHandler.landmarks.rightEye
  = Some (mkVec3 0.4 0.4 0) /\
  vy (mkVec3 0.6 0.4 0) = vy (mkVec3 0.4 0.4 0) /\
  exists rot,
    MediaPipeHandler.calculateHeadRotation eyes_reversed = Ok rot /\
    MediaPipeHandler.roll rot = PI /\
    MediaPipeHandler.roll rot <> 0.
Proof.
  split; [unfold eyes_reversed; role_lookup |].
  split; [unfold eyes_reversed; role_lookup |].
  split; [reflexivity |].
  eexists. split.
  - apply calculateHeadRotation_present; unfold eyes_reversed; role_lookup.
  - cbn [MediaPipeHandler.roll vx vy].
    replace (0.4 - 0.4) with 0 by lra.
    rewrite atan2_zero_left by lra.
    pose proof PI_RGT_0. split; [reflexivity | lra].
Qed.

(** C9.  With the required roles in the array, the extracted face width
    is the Euclidean distance in space between the two temple
    landmarks, and an array with the two temples exchanged gives the
    same face width. *)
Theorem faceWidth_temple_distance
  (lms lms' : list Landmark) (leftTemple rightTemple : Landmark) :
  complete lms ->
  complete lms' ->
  nth_error lms MediaPipeHandler.landmarks.leftTemple = Some leftTemple ->
  nth_error lms MediaPipeHandler.landmarks.rightTemple = Some rightTemple ->
  nth_error lms' MediaPipeHandler.landmarks.leftTemple = Some rightTemple ->
  nth_error lms' MediaPipeHandler.landmarks.rightTemple = Some leftTemple ->
  exists fd fd',
    MediaPipeHandler.extractFaceData lms = Ok fd /\
    MediaPipeHandler.extractFaceData lms' = Ok fd' /\
    MediaPipeHandler.faceWidth fd
    = sqrt ((vx rightTemple - vx leftTemple)²
            + (vy rightTemple - vy leftTemple)²
            + (vz rightTemple - vz leftTemple)²) /\
    MediaPipeHandler.faceWidth fd' = MediaPipeHandler.faceWidth fd.
Proof.
  intros Hc Hc' Hlt Hrt Hlt' Hrt'.
  destruct (Hc MediaPipeHandler.landmarks.noseTip) as [n Hn];
    [simpl; tauto |].
  destruct (Hc MediaPipeHandler.landmarks.foreheadTop) as [f Hf];
    [simpl; tauto |].
  destruct (Hc MediaPipeHandler.landmarks.chin) as [c Hch]; [simpl; tauto |].
  destruct (Hc MediaPipeHandler.landmarks.leftEye) as [l Hl];
    [simpl; tauto |].
  destruct (Hc MediaPipeHandler.landmarks.rightEye) as [r Hr];
    [simpl; tauto |].
  destruct (Hc' MediaPipeHandler.landmarks.noseTip) as [n' Hn'];
    [simpl; tauto |].
  destruct (Hc' MediaPipeHandler.landmarks.foreheadTop) as [f' Hf'];
    [simpl; tauto |].
  destruct (Hc' MediaPipeHandler.landmarks.chin) as [c' Hch'];
    [simpl; tauto |].
  destruct (Hc' MediaPipeHandler.landmarks.leftEye) as [l' Hl'];
    [simpl; tauto |].
  destruct (Hc' MediaPipeHandler.landmarks.rightEye) as [r' Hr'];
    [simpl; tauto |].
  destruct (extractFaceData_present _ _ _ _ _ _ Hn Hf Hch Hl Hr _ _ Hlt Hrt)
    as [rot [_ Hfd]].
  destruct (extractFaceData_present _ _ _ _ _ _ Hn' Hf' Hch' Hl' Hr' _ _
              Hlt' Hrt') as [rot' [_ Hfd']].
  do 2 eexists. split; [exact Hfd |]. split; [exact Hfd' |].
  cbn [MediaPipeHandler.faceWidth]. split.
  - apply distance3D_euclid.
  - apply distance3D_sym.
Qed.

Lemma complete_face_landmarks (a b c d e f g o : Landmark) :
  complete (face_landmarks 478 a b c d e f g o).
Proof.
  intros i Hi. simpl in Hi.
  repeat (destruct Hi as [<- | Hi]; [eexists; role_lookup |]).
  contradiction.
Qed.

Lemma faceWidth_temple_distance_witness :
  exists fd fd',
    MediaPipeHandler.extractFaceData scenarioA = Ok fd /\
    MediaPipeHandler.extractFaceData temples_swapped = Ok fd' /\
    MediaPipeHandler.faceWidth fd = 0.4 /\
    MediaPipeHandler.faceWidth fd' = MediaPipeHandler.faceWidth fd.
Proof.
  destruct (faceWidth_temple_distance scenarioA temples_swapped
              (mkVec3 0.3 0.4 0) (mkVec3 0.7 0.4 0))
    as [fd [fd' [H [H' [Hw Hs]]]]];
    try apply complete_face_landmarks;
    try (unfold scenarioA, temples_swapped; role_lookup).
  exists fd, fd'. repeat split; try assumption.
  rewrite Hw. cbn [vx vy vz].
  replace ((0.7 - 0.3)² + (0.4 - 0.4)² + (0 - 0)²) with (0.4 * 0.4)
    by (unfold Rsqr; lra).
  apply sqrt_square. lra.
Defined.

(** Scenario A through the extractor. *)
Example extractFaceData_scenarioA :
  MediaPipeHandler.extractFaceData scenarioA = Ok faceDataA.
Proof.
  destruct (extractFaceData_present scenarioA
              (mkVec3 0.5 0.45 0.05) (mkVec3 0.5 0.3 0) (mkVec3 0.5 0.6 0)
              (mkVec3 0.4 0.4 0) (mkVec3 0.6 0.4 0))
    with (leftTemple := mkVec3 0.3 0.4 0) (rightTemple := mkVec3 0.7 0.4 0)
    as [rot [Hrot Hfd]];
    try (unfold scenarioA; role_lookup).
  rewrite Hfd. clear Hfd.
  rewrite calculateHeadRotation_present
    with (noseTip := mkVec3 0.5 0.45 0.05) (forehead := mkVec3 0.5 0.3 0)
         (chin := mkVec3 0.5 0.6 0) (leftEye := mkVec3 0.4 0.4 0)
         (rightEye := mkVec3 0.6 0.4 0) in Hrot;
    try (unfold scenarioA; role_lookup).
  injection Hrot as <-. cbn [vx vy vz]. unfold faceDataA.
  assert (Hw : Utils.distance3D (mkVec3 0.3 0.4 0) (mkVec3 0.7 0.4 0) = 0.4).
  { rewrite distance3D_euclid. cbn [vx vy vz].
    replace ((0.7 - 0.3)² + (0.4 - 0.4)² + (0 - 0)²) with (0.4 * 0.4)
      by (unfold Rsqr; lra).
    apply sqrt_square. lra. }
  assert (Hyaw : atan2 (0.05 - (0 + 0) / 2) (0.5 - (0.4 + 0.6) / 2) - PI / 2
                 = 0).
  { replace (0.5 - (0.4 + 0.6) / 2) with 0 by lra.
    rewrite atan2_up by lra. lra. }
  assert (Hroll : atan2 (0.4 - 0.4) (0.6 - 0.4) = 0).
  { replace (0.4 - 0.4) with 0 by lra. apply atan2_zero_right. lra. }
  rewrite Hw, Hyaw, Hroll.
  replace (0.05 - (0 + 0) / 2) with 0.05 by lra.
  replace (0.6 - 0.3) with 0.3 by lra.
  replace ((0.4 + 0.6) / 2) with 0.5 by lra.
  replace ((0.4 + 0.4) / 2) with 0.4 by lra.
  replace ((0 + 0) / 2) with 0 by lra.
  replace (0.3 - 0.3 * 0.3) with 0.21 by lra.
  reflexivity.
Qed.

(** ** The transform mapper *)

Lemma set3_fields (v : Vec3) : HatRenderer.set3 (vx v) (vy v) (vz v) = v.
Proof. now destruct v. Qed.

Lemma fresh_renderer_startup : startup fresh_renderer.
Proof. repeat split. Qed.

Lemma renderer_with_smoothing_startup (k : R) :
  startup (renderer_with_smoothing k).
Proof. repeat split. Qed.

(** Both ways of putting a hat in the scene leave the smoothed state of
    the constructor in place. *)
Lemma startup_after_load :
  startup (HatRenderer.createFallbackHat HatRenderer.constructor) /\
  ready (HatRenderer.createFallbackHat HatRenderer.constructor) = true /\
  startup (HatRenderer.loadHat_loaded HatRenderer.constructor) /\
  ready (HatRenderer.loadHat_loaded HatRenderer.constructor) = true.
Proof. repeat split. Qed.

(** The state after a detected frame, for a renderer that holds a hat. *)
Lemma updateHatPosition_detected
  (r : HatRenderer.t)
  (fd : MediaPipeHandler.FaceData) (raw : list Landmark) :
  ready r = true ->
  let k := HatRenderer.smoothing (HatRenderer.settings r) in
  let p := Utils.smooth3D
             {| vx := - (vx (MediaPipeHandler.forehead fd) - 0.5) * 2;
                vy := - (vy (MediaPipeHandler.forehead fd) - 0.5) * 2
                      + HatRenderer.yOffset (HatRenderer.settings r) / 100;
                vz := vz (MediaPipeHandler.forehead fd) * 2
                      + HatRenderer.zOffset (HatRenderer.settings r) / 100 |}
             (HatRenderer.smoothedPosition r) k in
  let a := Utils.smooth3D
             {| vx := MediaPipeHandler.pitch (MediaPipeHandler.rotation fd)
                      * 0.5;
                vy := - MediaPipeHandler.yaw (MediaPipeHandler.rotation fd)
                      * 0.8;
                vz := MediaPipeHandler.roll (MediaPipeHandler.rotation fd) |}
             (HatRenderer.smoothedRotation r) k in
  let s := Utils.smooth
             (MediaPipeHandler.faceWidth fd * 3
              * HatRenderer.s_scale (HatRenderer.settings r))
             (Val (HatRenderer.smoothedScale r)) k in
  HatRenderer.updateHatPosition r (MediaPipeHandler.Face fd raw)
  = {| HatRenderer.hat :=
         Val {| HatRenderer.visible := true;
                HatRenderer.position := p;
                HatRenderer.rotation := a;
                HatRenderer.scale := HatRenderer.setScalar s |};
       HatRenderer.hatLoaded := true;
       HatRenderer.smoothedPosition := Val p;
       HatRenderer.smoothedRotation := Val a;
       HatRenderer.smoothedScale := s;
       HatRenderer.settings := HatRenderer.settings r |}.
Proof.
  unfold ready, HatRenderer.updateHatPosition.
  destruct (HatRenderer.hat r) as [ | | h]; try discriminate.
  intros Hl. rewrite Hl. cbn [negb]. cbv zeta.
  now rewrite !set3_fields.
Qed.

(** C4.  For a detected frame and a renderer that holds a hat, the
    targets are
    targetPosition = (-(forehead.x - 0.5) * 2,
                      -(forehead.y - 0.5) * 2 + yOffset/100,
                      forehead.z * 2 + zOffset/100),
    targetRotation = (pitch * 0.5, -yaw * 0.8, roll) and
    baseScale = faceWidth * 3 * settings.scale; each is smoothed against
    the stored smoothed value with settings.smoothing, stored, and set
    on the hat, which is made visible. *)
Theorem tracking_frame
  (r : HatRenderer.t)
  (fd : MediaPipeHandler.FaceData) (raw : list Landmark) :
  ready r = true ->
  let k := HatRenderer.smoothing (HatRenderer.settings r) in
  let targetPosition :=
    {| vx := - (vx (MediaPipeHandler.forehead fd) - 0.5) * 2;
       vy := - (vy (MediaPipeHandler.forehead fd) - 0.5) * 2
             + HatRenderer.yOffset (HatRenderer.settings r) / 100;
       vz := vz (MediaPipeHandler.forehead fd) * 2
             + HatRenderer.zOffset (HatRenderer.settings r) / 100 |} in
  let targetRotation :=
    {| vx := MediaPipeHandler.pitch (MediaPipeHandler.rotation fd) * 0.5;
       vy := - MediaPipeHandler.yaw (MediaPipeHandler.rotation fd) * 0.8;
       vz := MediaPipeHandler.roll (MediaPipeHandler.rotation fd) |} in
  let baseScale :=
    MediaPipeHandler.faceWidth fd * 3
    * HatRenderer.s_scale (HatRenderer.settings r) in
  let r' := HatRenderer.updateHatPosition r (MediaPipeHandler.Face fd raw) in
  HatRenderer.smoothedPosition r'
  = Val (Utils.smooth3D targetPosition (HatRenderer.smoothedPosition r) k) /\
  HatRenderer.smoothedRotation r'
  = Val (Utils.smooth3D targetRotation (HatRenderer.smoothedRotation r) k) /\
  HatRenderer.smoothedScale r'
  = Utils.smooth baseScale (Val (HatRenderer.smoothedScale r)) k /\
  HatRenderer.hat r'
  = Val {| HatRenderer.visible := true;
           HatRenderer.position :=
             Utils.smooth3D targetPosition (HatRenderer.smoothedPosition r) k;
           HatRenderer.rotation :=
             Utils.smooth3D targetRotation (HatRenderer.smoothedRotation r) k;
           HatRenderer.scale :=
             HatRenderer.setScalar
               (Utils.smooth baseScale (Val (HatRenderer.smoothedScale r))
                  k) |}.
Proof.
  intros Hr k targetPosition targetRotation baseScale r'. subst r'.
  rewrite (updateHatPosition_detected r fd raw Hr).
  repeat split.
Qed.

Lemma tracking_frame_witness :
  HatRenderer.smoothedScale
    (HatRenderer.updateHatPosition tracking_renderer frameA)
  = Utils.smooth (0.4 * 3 * 1.0)
      (Val (HatRenderer.smoothedScale tracking_renderer)) 0.5.
Proof.
  destruct (tracking_frame tracking_renderer faceDataA scenarioA)
    as [_ [_ [H _]]]; [reflexivity | exact H].
Defined.

(** C1, as the code has it.  On the first detected frame from the
    startup state, position and rotation are set to their raw targets,
    and the scale is the blend of the initial scale 1 with the raw base
    scale, [1 * smoothing + baseScale * (1 - smoothing)]: it is the base
    scale when smoothing is 0. *)
Theorem first_frame
  (r : HatRenderer.t)
  (fd : MediaPipeHandler.FaceData) (raw : list Landmark) :
  ready r = true ->
  startup r ->
  let k := HatRenderer.smoothing (HatRenderer.settings r) in
  let targetPosition :=
    {| vx := - (vx (MediaPipeHandler.forehead fd) - 0.5) * 2;
       vy := - (vy (MediaPipeHandler.forehead fd) - 0.5) * 2
             + HatRenderer.yOffset (HatRenderer.settings r) / 100;
       vz := vz (MediaPipeHandler.forehead fd) * 2
             + HatRenderer.zOffset (HatRenderer.settings r) / 100 |} in
  let targetRotation :=
    {| vx := MediaPipeHandler.pitch (MediaPipeHandler.rotation fd) * 0.5;
       vy := - MediaPipeHandler.yaw (MediaPipeHandler.rotation fd) * 0.8;
       vz := MediaPipeHandler.roll (MediaPipeHandler.rotation fd) |} in
  let baseScale :=
    MediaPipeHandler.faceWidth fd * 3
    * HatRenderer.s_scale (HatRenderer.settings r) in
  let r' := HatRenderer.updateHatPosition r (MediaPipeHandler.Face fd raw) in
  HatRenderer.smoothedPosition r' = Val targetPosition /\
  HatRenderer.smoothedRotation r' = Val targetRotation /\
  HatRenderer.smoothedScale r' = 1 * k + baseScale * (1 - k) /\
  (k = 0 -> HatRenderer.smoothedScale r' = baseScale) /\
  HatRenderer.hat r'
  = Val {| HatRenderer.visible := true;
           HatRenderer.position := targetPosition;
           HatRenderer.rotation := targetRotation;
           HatRenderer.scale :=
             HatRenderer.setScalar (1 * k + baseScale * (1 - k)) |}.
Proof.
  intros Hr [Hp [Ha Hs]] k targetPosition targetRotation baseScale r'.
  subst r'. rewrite (updateHatPosition_detected r fd raw Hr).
  cbn [HatRenderer.smoothedPosition HatRenderer.smoothedRotation
       HatRenderer.smoothedScale HatRenderer.hat].
  rewrite Hp, Ha, Hs, smooth_present. cbn [Utils.smooth3D].
  fold k. fold baseScale.
  repeat split. intros Hk. rewrite Hk. ring.
Qed.

Lemma first_frame_witness :
  HatRenderer.smoothedScale
    (HatRenderer.updateHatPosition (renderer_with_smoothing 0) frameA)
  = 0.4 * 3 * 1.0.
Proof.
  destruct (first_frame (renderer_with_smoothing 0) faceDataA scenarioA)
    as [_ [_ [_ [H _]]]];
    [reflexivity | apply renderer_with_smoothing_startup |].
  apply H. reflexivity.
Defined.

(** C1 fails with the smoothing of the constructor, 0.5: from the
    startup state, the first frame of scenario A sets the scale to 1.1
    and the raw base scale is 1.2. *)
Lemma first_frame_scale_not_snapped :
  ready fresh_renderer = true /\
  startup fresh_renderer /\
  HatRenderer.smoothing (HatRenderer.settings fresh_renderer) = 0.5 /\
  MediaPipeHandler.faceWidth faceDataA * 3
  * HatRenderer.s_scale (HatRenderer.settings fresh_renderer) = 1.2 /\
  HatRenderer.smoothedScale
    (HatRenderer.updateHatPosition fresh_renderer frameA) = 1.1 /\
  (exists h,
      HatRenderer.hat (HatRenderer.updateHatPosition fresh_renderer frameA)
      = Val h /\
      HatRenderer.visible h = true /\
      vx (HatRenderer.scale h) = 1.1) /\
  HatRenderer.smoothedScale
    (HatRenderer.updateHatPosition fresh_renderer frameA)
  <> MediaPipeHandler.faceWidth faceDataA * 3
     * HatRenderer.s_scale (HatRenderer.settings fresh_renderer).
Proof.
  assert (E : HatRenderer.smoothedScale
                (HatRenderer.updateHatPosition fresh_renderer frameA)
              = 1 * 0.5 + 0.4 * 3 * 1.0 * (1 - 0.5)) by reflexivity.
  split; [reflexivity |]. split; [apply fresh_renderer_startup |].
  split; [reflexivity |].
  split; [cbn [MediaPipeHandler.faceWidth faceDataA HatRenderer.s_scale
               HatRenderer.settings fresh_renderer
               HatRenderer.createFallbackHat HatRenderer.constructor];
          lra |].
  split; [rewrite E; lra |].
  split.
  - eexists. split; [reflexivity |]. split; [reflexivity |].
    cbn [HatRenderer.scale HatRenderer.setScalar vx].
    unfold Utils.smooth.
    cbn [HatRenderer.smoothedScale HatRenderer.smoothing HatRenderer.s_scale
         HatRenderer.settings fresh_renderer HatRenderer.createFallbackHat
         HatRenderer.constructor MediaPipeHandler.faceWidth faceDataA].
    lra.
  - rewrite E.
    cbn [MediaPipeHandler.faceWidth faceDataA HatRenderer.s_scale
         HatRenderer.settings fresh_renderer HatRenderer.createFallbackHat
         HatRenderer.constructor].
    lra.
Qed.

(** ** Gating *)

Lemma updateHatPosition_not_ready
  (r : HatRenderer.t) (faceData : MediaPipeHandler.FaceResults) :
  ready r = false -> HatRenderer.updateHatPosition r faceData = r.
Proof.
  unfold ready, HatRenderer.updateHatPosition.
  destruct (HatRenderer.hat r); try reflexivity.
  intros ->. reflexivity.
Qed.

Lemma updateHatPosition_undetected (r : HatRenderer.t) :
  ready r = true ->
  exists h,
    HatRenderer.hat r = Val h /\
    HatRenderer.updateHatPosition r MediaPipeHandler.NoFace
    = {| HatRenderer.hat := Val (HatRenderer.with_visible h false);
         HatRenderer.hatLoaded := true;
         HatRenderer.smoothedPosition := HatRenderer.smoothedPosition r;
         HatRenderer.smoothedRotation := HatRenderer.smoothedRotation r;
         HatRenderer.smoothedScale := HatRenderer.smoothedScale r;
         HatRenderer.settings := HatRenderer.settings r |}.
Proof.
  unfold ready, HatRenderer.updateHatPosition.
  destruct (HatRenderer.hat r) as [ | | h]; try discriminate.
  intros ->. exists h. split; reflexivity.
Qed.

(** C2.  A frame with [detected == false] leaves smoothedPosition,
    smoothedRotation and smoothedScale as they were, and a detected
    frame that follows is processed exactly as it would have been
    without the undetected one.  For a renderer that holds a hat, the
    undetected frame hides the hat, and the detected frame that follows
    snaps position and rotation when they were never set and blends with
    the stored ones otherwise. *)
Theorem undetected_frame
  (r : HatRenderer.t) (faceData : MediaPipeHandler.FaceResults) :
  MediaPipeHandler.detected faceData = false ->
  let r' := HatRenderer.updateHatPosition r faceData in
  HatRenderer.smoothedPosition r' = HatRenderer.smoothedPosition r /\
  HatRenderer.smoothedRotation r' = HatRenderer.smoothedRotation r /\
  HatRenderer.smoothedScale r' = HatRenderer.smoothedScale r /\
  (forall fd raw,
      HatRenderer.updateHatPosition r' (MediaPipeHandler.Face fd raw)
      = HatRenderer.updateHatPosition r (MediaPipeHandler.Face fd raw)) /\
  (ready r = true ->
   (exists h, HatRenderer.hat r' = Val h /\ HatRenderer.visible h = false) /\
   (forall fd raw target,
       target
       = {| vx := - (vx (MediaPipeHandler.forehead fd) - 0.5) * 2;
            vy := - (vy (MediaPipeHandler.forehead fd) - 0.5) * 2
                  + HatRenderer.yOffset (HatRenderer.settings r) / 100;
            vz := vz (MediaPipeHandler.forehead fd) * 2
                  + HatRenderer.zOffset (HatRenderer.settings r) / 100 |} ->
       (nullish (HatRenderer.smoothedPosition r) = true ->
        HatRenderer.smoothedPosition
          (HatRenderer.updateHatPosition r' (MediaPipeHandler.Face fd raw))
        = Val target) /\
       (forall previous,
           HatRenderer.smoothedPosition r = Val previous ->
           HatRenderer.smoothedPosition
             (HatRenderer.updateHatPosition r'
                (MediaPipeHandler.Face fd raw))
           = Val (Utils.smooth3D target (Val previous)
                    (HatRenderer.smoothing (HatRenderer.settings r))))) /\
   (forall fd raw target,
       target
       = {| vx := MediaPipeHandler.pitch (MediaPipeHandler.rotation fd)
                  * 0.5;
            vy := - MediaPipeHandler.yaw (MediaPipeHandler.rotation fd)
                  * 0.8;
            vz := MediaPipeHandler.roll (MediaPipeHandler.rotation fd) |} ->
       (nullish (HatRenderer.smoothedRotation r) = true ->
        HatRenderer.smoothedRotation
          (HatRenderer.updateHatPosition r' (MediaPipeHandler.Face fd raw))
        = Val target) /\
       (forall previous,
           HatRenderer.smoothedRotation r = Val previous ->
           HatRenderer.smoothedRotation
             (HatRenderer.updateHatPosition r'
                (MediaPipeHandler.Face fd raw))
           = Val (Utils.smooth3D target (Val previous)
                    (HatRenderer.smoothing (HatRenderer.settings r)))))).
Proof.
  intros Hd r'.
  destruct faceData as [ | fd0 raw0]; [clear Hd | discriminate].
  destruct (ready r) eqn:Hr.
  - destruct (updateHatPosition_undetected r Hr) as [h [Hh Hu]].
    assert (Hr' : ready r' = true) by (subst r'; now rewrite Hu).
    assert (Hnext :
             forall fd raw,
               HatRenderer.updateHatPosition r' (MediaPipeHandler.Face fd raw)
               = HatRenderer.updateHatPosition r
                   (MediaPipeHandler.Face fd raw)).
    { intros fd raw.
      rewrite (updateHatPosition_detected r' fd raw Hr').
      rewrite (updateHatPosition_detected r fd raw Hr).
      subst r'. now rewrite Hu. }
    split; [subst r'; now rewrite Hu |].
    split; [subst r'; now rewrite Hu |].
    split; [subst r'; now rewrite Hu |].
    split; [exact Hnext |].
    intros _. split; [| split].
    + subst r'. rewrite Hu. eexists. split; reflexivity.
    + intros fd raw target ->. rewrite Hnext.
      rewrite (updateHatPosition_detected r fd raw Hr).
      cbn [HatRenderer.smoothedPosition]. split.
      * intros Hn. destruct (HatRenderer.smoothedPosition r);
          [reflexivity | reflexivity | discriminate].
      * intros previous ->. reflexivity.
    + intros fd raw target ->. rewrite Hnext.
      rewrite (updateHatPosition_detected r fd raw Hr).
      cbn [HatRenderer.smoothedRotation]. split.
      * intros Hn. destruct (HatRenderer.smoothedRotation r);
          [reflexivity | reflexivity | discriminate].
      * intros previous ->. reflexivity.
  - subst r'. rewrite (updateHatPosition_not_ready r _ Hr).
    do 4 (split; [reflexivity |]). discriminate.
Qed.

Lemma undetected_frame_witness :
  HatRenderer.smoothedScale
    (HatRenderer.updateHatPosition tracking_renderer MediaPipeHandler.NoFace)
  = HatRenderer.smoothedScale tracking_renderer /\
  exists h,
    HatRenderer.hat
      (HatRenderer.updateHatPosition tracking_renderer MediaPipeHandler.NoFace)
    = Val h /\
    HatRenderer.visible h = false.
Proof.
  destruct (undetected_frame tracking_renderer MediaPipeHandler.NoFace)
    as [_ [_ [Hs [_ Hready]]]]; [reflexivity |].
  split; [exact Hs |].
  destruct Hready as [Hhidden _]; [reflexivity | exact Hhidden].
Defined.

(** ** Missing landmarks *)

Lemma extractFaceData_missing (lms : list Landmark) :
  missing_role lms -> MediaPipeHandler.extractFaceData lms = Throw TypeError.
Proof.
  intros [i [Hi Hnone]]. simpl in Hi.
  unfold MediaPipeHandler.extractFaceData,
    MediaPipeHandler.calculateHeadRotation.
  repeat (destruct Hi as [<- | Hi];
          [rewrite Hnone;
           repeat match goal with
             | |- context [nth_error lms ?k] => destruct (nth_error lms k)
             end;
           reflexivity |]).
  contradiction.
Qed.

Lemma missing_role_truncated : missing_role truncated.
Proof.
  exists MediaPipeHandler.landmarks.foreheadTop.
  split; [simpl; tauto | reflexivity].
Qed.

(** The undetected frame of the tracker hides the hat and the loop goes
    on. *)
Lemma renderLoop_no_face (policy : HatTryOnApp.listener_policy) :
  HatTryOnApp.hidden_and_running
    (HatTryOnApp.renderLoop policy (HatTryOnApp.Delivers no_face)
       tracking_app)
  = true.
Proof. destruct policy; reflexivity. Qed.

(** [tracking_app] is the application after the first frame of
    scenario A. *)
Lemma renderLoop_scenarioA (policy : HatTryOnApp.listener_policy) :
  HatTryOnApp.renderLoop policy (HatTryOnApp.Delivers (one_face scenarioA))
    (HatTryOnApp.startCamera HatTryOnApp.init)
  = HatTryOnApp.Rescheduled tracking_app.
Proof.
  unfold HatTryOnApp.renderLoop, HatTryOnApp.processFrame,
    MediaPipeHandler.processResults, one_face.
  cbn [HatTryOnApp.isRunning HatTryOnApp.startCamera negb
       MediaPipeHandler.multiFaceLandmarks].
  rewrite extractFaceData_scenarioA. reflexivity.
Qed.

(** C5, as the code has it.  When a required role has no landmark,
    extraction throws, and so does [processResults], before the results
    callback is reached.  No handler stands between that exception and
    the frame loop: if the tracker passes it on, the run of the loop
    fails and schedules no next frame; if the tracker drops it, the run
    goes on as if the tracker had delivered nothing, with the face data
    of the frame before. *)
Theorem missing_landmark_propagates
  (lms : list Landmark) (rest : list (list Landmark)) :
  missing_role lms ->
  let results :=
    {| MediaPipeHandler.multiFaceLandmarks := Val (lms :: rest) |} in
  MediaPipeHandler.extractFaceData lms = Throw TypeError /\
  MediaPipeHandler.processResults results = Throw TypeError /\
  (forall app,
      HatTryOnApp.isRunning app = true ->
      HatTryOnApp.renderLoop HatTryOnApp.Rethrows
        (HatTryOnApp.Delivers results) app
      = HatTryOnApp.Rejected TypeError /\
      HatTryOnApp.renderLoop HatTryOnApp.Swallows
        (HatTryOnApp.Delivers results) app
      = HatTryOnApp.renderLoop HatTryOnApp.Swallows HatTryOnApp.Silent app).
Proof.
  intros Hm results.
  pose proof (extractFaceData_missing lms Hm) as He.
  assert (Hp : MediaPipeHandler.processResults results = Throw TypeError).
  { unfold MediaPipeHandler.processResults, results.
    cbn [MediaPipeHandler.multiFaceLandmarks]. now rewrite He. }
  split; [exact He |]. split; [exact Hp |].
  intros app Hrun.
  unfold HatTryOnApp.renderLoop, HatTryOnApp.processFrame.
  rewrite Hp, !Hrun. cbn [negb]. split; reflexivity.
Qed.

Lemma missing_landmark_propagates_witness :
  MediaPipeHandler.extractFaceData truncated = Throw TypeError /\
  HatTryOnApp.renderLoop HatTryOnApp.Rethrows
    (HatTryOnApp.Delivers (one_face truncated)) tracking_app
  = HatTryOnApp.Rejected TypeError.
Proof.
  destruct (missing_landmark_propagates truncated [] missing_role_truncated)
    as [He [_ Hloop]].
  split; [exact He |].
  destruct (Hloop tracking_app) as [H _]; [reflexivity | exact H].
Defined.

(** C5 fails on an array that stops before the forehead landmark: the
    frame is not handled as an undetected one.  With a tracker that
    passes the exception on, the loop ends; with one that drops it, the
    hat stays visible at the pose of the frame before. *)
Lemma missing_landmark_not_hidden :
  missing_role truncated /\
  HatTryOnApp.renderLoop HatTryOnApp.Rethrows
    (HatTryOnApp.Delivers (one_face truncated)) tracking_app
  = HatTryOnApp.Rejected TypeError /\
  HatTryOnApp.hidden_and_running
    (HatTryOnApp.renderLoop HatTryOnApp.Rethrows
       (HatTryOnApp.Delivers (one_face truncated)) tracking_app)
  = false /\
  HatTryOnApp.hidden_and_running
    (HatTryOnApp.renderLoop HatTryOnApp.Swallows
       (HatTryOnApp.Delivers (one_face truncated)) tracking_app)
  = false /\
  HatTryOnApp.hidden_and_running
    (HatTryOnApp.renderLoop HatTryOnApp.Rethrows
       (HatTryOnApp.Delivers no_face) tracking_app)
  = true /\
  HatTryOnApp.hidden_and_running
    (HatTryOnApp.renderLoop HatTryOnApp.Swallows
       (HatTryOnApp.Delivers no_face) tracking_app)
  = true.
Proof.
  split; [apply missing_role_truncated |].
  repeat split; reflexivity.
Qed.

(** * Further properties of the code *)

(** ** [Utils.clamp] *)

(** Splits on the innermost comparison of the goal. *)
Ltac case_rle :=
  match goal with
  | |- context [Rle_dec ?a ?b] =>
      lazymatch a with
      | context [Rle_dec _ _] => fail
      | _ => lazymatch b with
             | context [Rle_dec _ _] => fail
             | _ => destruct (Rle_dec a b)
             end
      end
  end.

(** X1.  With [min <= max], the clamped value lies in [[min, max]], a
    value already in that interval is returned as it is, and clamping
    twice is clamping once. *)
Theorem clamp_range (value min max : R) :
  min <= max ->
  min <= Utils.clamp value min max <= max /\
  (min <= value <= max -> Utils.clamp value min max = value) /\
  Utils.clamp (Utils.clamp value min max) min max
  = Utils.clamp value min max.
Proof.
  intros Hmm. unfold Utils.clamp, Rmin, Rmax.
  repeat case_rle; repeat split; intros; lra.
Qed.

Lemma clamp_range_witness :
  0 <= Utils.clamp 7 0 1 <= 1 /\
  (0 <= 7 <= 1 -> Utils.clamp 7 0 1 = 7) /\
  Utils.clamp (Utils.clamp 7 0 1) 0 1 = Utils.clamp 7 0 1.
Proof. apply (clamp_range 7 0 1). lra. Defined.

(** X2.  With the bounds the wrong way round, [min > max], the result
    is [max] whatever the value. *)
Theorem clamp_inverted (value min max : R) :
  max < min -> Utils.clamp value min max = max.
Proof.
  intros Hmm. unfold Utils.clamp, Rmin, Rmax.
  repeat case_rle; lra.
Qed.

Lemma clamp_inverted_witness : Utils.clamp 0.5 1 0 = 0.
Proof. apply clamp_inverted. lra. Defined.

(** ** [Utils.FPSCounter] *)

Lemma js_round_near (x : R) :
  IZR (js_round x) - / 2 <= x < IZR (js_round x) + / 2.
Proof.
  unfold js_round. destruct (base_Int_part (x + / 2)) as [Hle Hgt]. lra.
Qed.

Lemma js_round_nonneg (x : R) : 0 <= x -> (0 <= js_round x)%Z.
Proof.
  intros Hx. pose proof (js_round_near x) as [_ Hlt].
  apply Z.lt_succ_r. apply lt_IZR. rewrite succ_IZR. lra.
Qed.

(** A [tick] that comes less than [updateInterval] after the last
    update returns [false], counts the frame and leaves the rate and the
    time of the last update alone. *)
Lemma tick_inside_interval (now : R) (c : Utils.FPSCounter.t) :
  now - Utils.FPSCounter.lastTime c < Utils.FPSCounter.updateInterval c ->
  fst (Utils.FPSCounter.tick now c) = false /\
  Utils.FPSCounter.frames (snd (Utils.FPSCounter.tick now c))
  = S (Utils.FPSCounter.frames c) /\
  Utils.FPSCounter.getFPS (snd (Utils.FPSCounter.tick now c))
  = Utils.FPSCounter.getFPS c /\
  Utils.FPSCounter.lastTime (snd (Utils.FPSCounter.tick now c))
  = Utils.FPSCounter.lastTime c.
Proof.
  intros Hlt. unfold Utils.FPSCounter.tick.
  destruct (Rle_dec (Utils.FPSCounter.updateInterval c)
              (now - Utils.FPSCounter.lastTime c)) as [Hle | _]; [lra |].
  repeat split.
Qed.

(** X4.  With a positive [updateInterval], a [tick] that comes at least
    that long after the last update returns [true], restarts the count
    at this time, and sets the rate to the frames counted, this one
    included, per 1000 time units, rounded to the nearest integer: the
    rate is not negative and is within a half of the exact quotient. *)
Theorem tick_updates (now : R) (c : Utils.FPSCounter.t) :
  0 < Utils.FPSCounter.updateInterval c ->
  Utils.FPSCounter.updateInterval c <= now - Utils.FPSCounter.lastTime c ->
  let c' := snd (Utils.FPSCounter.tick now c) in
  let exact := INR (S (Utils.FPSCounter.frames c)) * 1000
               / (now - Utils.FPSCounter.lastTime c) in
  fst (Utils.FPSCounter.tick now c) = true /\
  Utils.FPSCounter.frames c' = 0%nat /\
  Utils.FPSCounter.lastTime c' = now /\
  IZR (Utils.FPSCounter.getFPS c') - / 2 <= exact
  < IZR (Utils.FPSCounter.getFPS c') + / 2 /\
  (0 <= Utils.FPSCounter.getFPS c')%Z.
Proof.
  intros Hpos Hle c' exact. subst c'. unfold Utils.FPSCounter.tick.
  destruct (Rle_dec (Utils.FPSCounter.updateInterval c)
              (now - Utils.FPSCounter.lastTime c)) as [_ | Hn]; [| lra].
  cbn [fst snd Utils.FPSCounter.frames Utils.FPSCounter.lastTime
       Utils.FPSCounter.getFPS Utils.FPSCounter.fps].
  fold exact.
  split; [reflexivity |]. split; [reflexivity |]. split; [reflexivity |].
  split; [apply js_round_near |].
  apply js_round_nonneg. unfold exact.
  apply Rmult_le_pos.
  - apply Rmult_le_pos; [apply pos_INR | lra].
  - left. apply Rinv_0_lt_compat. lra.
Qed.

Lemma tick_updates_witness :
  fst (Utils.FPSCounter.tick 500
         (Utils.FPSCounter.constructor
            Utils.FPSCounter.default_updateInterval 0))
  = true.
Proof.
  apply (tick_updates 500
           (Utils.FPSCounter.constructor
              Utils.FPSCounter.default_updateInterval 0));
    cbn [Utils.FPSCounter.lastTime Utils.FPSCounter.updateInterval
         Utils.FPSCounter.constructor];
    unfold Utils.FPSCounter.default_updateInterval; lra.
Defined.

Lemma steady_S (t0 d : R) (n : nat) :
  steady t0 d (S n) = steady t0 d n ++ [t0 + INR (S n) * d].
Proof. unfold steady. now rewrite seq_S, map_app. Qed.

Lemma ticks_app (l1 l2 : list R) (c : Utils.FPSCounter.t) :
  Utils.FPSCounter.ticks (l1 ++ l2) c
  = Utils.FPSCounter.ticks l2 (Utils.FPSCounter.ticks l1 c).
Proof. unfold Utils.FPSCounter.ticks. apply fold_left_app. Qed.

(** What a steady stream of frames keeps true of the counter: [j]
    frames were counted since the last update, they span less than the
    interval, and the rate is the fresh 0 until the first update, which
    needs the frames to span the interval, and the rounded steady rate
    after it. *)
Lemma steady_invariant (U t0 d : R) (n : nat) :
  0 < U -> 0 < d ->
  let c := Utils.FPSCounter.ticks (steady t0 d n)
             (Utils.FPSCounter.constructor U t0) in
  exists j : nat,
    (j <= n)%nat /\
    Utils.FPSCounter.frames c = j /\
    Utils.FPSCounter.lastTime c = t0 + INR (n - j) * d /\
    Utils.FPSCounter.updateInterval c = U /\
    INR j * d < U /\
    (j = n -> Utils.FPSCounter.fps c = 0%Z) /\
    ((j < n)%nat ->
     Utils.FPSCounter.fps c = js_round (1000 / d) /\ U <= INR n * d).
Proof.
  intros HU Hd. induction n as [| n IH]; cbv zeta.
  - exists 0%nat. cbn. repeat split; try lra; try lia.
  - rewrite steady_S, ticks_app.
    cbv zeta in IH. destruct IH as [j [Hj [Hf [Hl [Hu [Hspan [H0 H1]]]]]]].
    set (c := Utils.FPSCounter.ticks (steady t0 d n)
                (Utils.FPSCounter.constructor U t0)) in *.
    replace (Utils.FPSCounter.ticks [t0 + INR (S n) * d] c)
      with (snd (Utils.FPSCounter.tick (t0 + INR (S n) * d) c))
      by reflexivity.
    unfold Utils.FPSCounter.tick. rewrite Hu, Hl, Hf.
    assert (Hdelta : t0 + INR (S n) * d - (t0 + INR (n - j) * d)
                     = INR (S j) * d).
    { rewrite !S_INR, minus_INR by exact Hj. ring. }
    rewrite Hdelta.
    assert (Hmono : INR (S j) * d <= INR (S n) * d).
    { apply Rmult_le_compat_r; [lra | apply le_INR; lia]. }
    destruct (Rle_dec U (INR (S j) * d)) as [Hup | Hno]; cbn [snd].
    + exists 0%nat.
      cbn [Utils.FPSCounter.frames Utils.FPSCounter.lastTime
           Utils.FPSCounter.updateInterval Utils.FPSCounter.fps].
      split; [lia |]. split; [reflexivity |].
      split; [rewrite Nat.sub_0_r; reflexivity |].
      split; [reflexivity |]. split; [simpl; lra |].
      split; [discriminate |]. intros _. split; [| lra]. f_equal.
      assert (Hpos : 0 < INR (S j)) by (apply lt_0_INR; lia).
      field. split; lra.
    + apply Rnot_le_lt in Hno. exists (S j).
      cbn [Utils.FPSCounter.frames Utils.FPSCounter.lastTime
           Utils.FPSCounter.updateInterval Utils.FPSCounter.fps].
      split; [lia |]. split; [reflexivity |].
      split; [now replace (S n - S j)%nat with (n - j)%nat by lia |].
      split; [reflexivity |]. split; [exact Hno |].
      split; intros Hc; [apply H0; lia |].
      destruct H1 as [Hfps Hspanned]; [lia |].
      split; [exact Hfps |].
      assert (INR n * d <= INR (S n) * d)
        by (apply Rmult_le_compat_r; [lra | apply le_INR; lia]).
      lra.
Qed.

(** X5.  Frames that arrive at a steady period after the counter was
    made, the times being whole numbers that doubles hold exactly and
    the [updateInterval] positive: the rate shown is 0 while the frames
    span less than the interval, and [Math.round(1000 / d)] once they
    span it; no other value is ever shown. *)
Theorem steady_rate (U : R) (z0 zd : Z) (n : nat) :
  0 < U ->
  (0 <= z0)%Z -> (0 < zd)%Z ->
  (z0 + Z.of_nat n * zd <= 2 ^ 53)%Z ->
  (Z.of_nat n * 1000 <= 2 ^ 53)%Z ->
  let t0 := IZR z0 in
  let d := IZR zd in
  let c := Utils.FPSCounter.ticks (steady t0 d n)
             (Utils.FPSCounter.constructor U t0) in
  (Utils.FPSCounter.getFPS c = 0%Z \/
   Utils.FPSCounter.getFPS c = js_round (1000 / d)) /\
  (U <= INR n * d -> Utils.FPSCounter.getFPS c = js_round (1000 / d)) /\
  (INR n * d < U -> Utils.FPSCounter.getFPS c = 0%Z).
Proof.
  intros HU _ Hzd _ _ t0 d c.
  assert (Hd : 0 < d) by (subst d; now apply IZR_lt).
  destruct (steady_invariant U t0 d n HU Hd)
    as [j [Hj [Hf [Hl [Hu [Hspan [H0 H1]]]]]]].
  fold c in Hf, Hl, Hu, H0, H1. unfold Utils.FPSCounter.getFPS.
  destruct (Nat.eq_dec j n) as [E | NE].
  - split; [left; now apply H0 |]. split.
    + intros Hn. rewrite E in Hspan. lra.
    + intros _. now apply H0.
  - destruct H1 as [Hfps Hspanned]; [lia |].
    split; [right; exact Hfps |]. split.
    + intros _. exact Hfps.
    + intros Hn. lra.
Qed.

Lemma steady_rate_witness :
  Utils.FPSCounter.getFPS
    (Utils.FPSCounter.ticks (steady 0 20 25)
       (Utils.FPSCounter.constructor
          Utils.FPSCounter.default_updateInterval 0))
  = js_round (1000 / 20).
Proof.
  destruct (steady_rate Utils.FPSCounter.default_updateInterval 0 20 25)
    as [_ [H _]];
    [ unfold Utils.FPSCounter.default_updateInterval; lra
    | lia | lia | cbn; lia | cbn; lia | ].
  apply H. unfold Utils.FPSCounter.default_updateInterval.
  replace (INR 25) with 25 by (simpl; lra). lra.
Defined.

(** ** Sequences of frames *)

Lemma updateHatPosition_targets
  (r : HatRenderer.t)
  (fd : MediaPipeHandler.FaceData) (raw : list Landmark) :
  ready r = true ->
  let k := HatRenderer.smoothing (HatRenderer.settings r) in
  let p := Utils.smooth3D (targetPosition (HatRenderer.settings r) fd)
             (HatRenderer.smoothedPosition r) k in
  let a := Utils.smooth3D (targetRotation fd)
             (HatRenderer.smoothedRotation r) k in
  let s := Utils.smooth (baseScale (HatRenderer.settings r) fd)
             (Val (HatRenderer.smoothedScale r)) k in
  HatRenderer.updateHatPosition r (MediaPipeHandler.Face fd raw)
  = {| HatRenderer.hat :=
         Val {| HatRenderer.visible := true;
                HatRenderer.position := p;
                HatRenderer.rotation := a;
                HatRenderer.scale := HatRenderer.setScalar s |};
       HatRenderer.hatLoaded := true;
       HatRenderer.smoothedPosition := Val p;
       HatRenderer.smoothedRotation := Val a;
       HatRenderer.smoothedScale := s;
       HatRenderer.settings := HatRenderer.settings r |}.
Proof. intros Hr. exact (updateHatPosition_detected r fd raw Hr). Qed.

Lemma ready_updateHatPosition
  (r : HatRenderer.t) (f : MediaPipeHandler.FaceResults) :
  ready (HatRenderer.updateHatPosition r f) = ready r.
Proof.
  destruct (ready r) eqn:Hr.
  - destruct f as [| fd raw].
    + destruct (updateHatPosition_undetected r Hr) as [h [_ ->]].
      reflexivity.
    + rewrite (updateHatPosition_targets r fd raw Hr). reflexivity.
  - now rewrite (updateHatPosition_not_ready r f Hr).
Qed.

Lemma settings_updateHatPosition
  (r : HatRenderer.t) (f : MediaPipeHandler.FaceResults) :
  HatRenderer.settings (HatRenderer.updateHatPosition r f)
  = HatRenderer.settings r.
Proof.
  destruct (ready r) eqn:Hr.
  - destruct f as [| fd raw].
    + destruct (updateHatPosition_undetected r Hr) as [h [_ ->]].
      reflexivity.
    + rewrite (updateHatPosition_targets r fd raw Hr). reflexivity.
  - now rewrite (updateHatPosition_not_ready r f Hr).
Qed.

Lemma undetected_state (r : HatRenderer.t) :
  let r' := HatRenderer.updateHatPosition r MediaPipeHandler.NoFace in
  HatRenderer.smoothedPosition r' = HatRenderer.smoothedPosition r /\
  HatRenderer.smoothedRotation r' = HatRenderer.smoothedRotation r /\
  HatRenderer.smoothedScale r' = HatRenderer.smoothedScale r.
Proof.
  cbv zeta. destruct (ready r) eqn:Hr.
  - destruct (updateHatPosition_undetected r Hr) as [h [_ ->]].
    repeat split.
  - rewrite (updateHatPosition_not_ready r _ Hr). repeat split.
Qed.

Lemma track_snoc (r : HatRenderer.t)
  (frames : list MediaPipeHandler.FaceResults)
  (f : MediaPipeHandler.FaceResults) :
  track r (frames ++ [f]) = HatRenderer.updateHatPosition (track r frames) f.
Proof. unfold track. now rewrite fold_left_app. Qed.

Lemma ready_track (r : HatRenderer.t)
  (frames : list MediaPipeHandler.FaceResults) :
  ready (track r frames) = ready r.
Proof.
  induction frames as [| f frames IH] using rev_ind; [reflexivity |].
  now rewrite track_snoc, ready_updateHatPosition.
Qed.

Lemma settings_track (r : HatRenderer.t)
  (frames : list MediaPipeHandler.FaceResults) :
  HatRenderer.settings (track r frames) = HatRenderer.settings r.
Proof.
  induction frames as [| f frames IH] using rev_ind; [reflexivity |].
  now rewrite track_snoc, settings_updateHatPosition.
Qed.

(** X6.  Whatever frames are processed, the renderer keeps its hat and
    its settings.  For a renderer that holds a hat: the hat is visible
    after a run of frames exactly when the last frame had a face; if no
    frame had a face the smoothed state is the one before the run; if
    some frame had one, the smoothed position and rotation are set, and
    stay set. *)
Theorem frames_invariants (r : HatRenderer.t)
  (frames : list MediaPipeHandler.FaceResults) :
  let r' := track r frames in
  ready r' = ready r /\
  HatRenderer.settings r' = HatRenderer.settings r /\
  (existsb MediaPipeHandler.detected frames = false ->
   HatRenderer.smoothedPosition r' = HatRenderer.smoothedPosition r /\
   HatRenderer.smoothedRotation r' = HatRenderer.smoothedRotation r /\
   HatRenderer.smoothedScale r' = HatRenderer.smoothedScale r) /\
  (ready r = true ->
   (existsb MediaPipeHandler.detected frames = true ->
    nullish (HatRenderer.smoothedPosition r') = false /\
    nullish (HatRenderer.smoothedRotation r') = false) /\
   (forall earlier f,
       frames = earlier ++ [f] ->
       exists h,
         HatRenderer.hat r' = Val h /\
         HatRenderer.visible h = MediaPipeHandler.detected f)).
Proof.
  cbv zeta. split; [apply ready_track |]. split; [apply settings_track |].
  induction frames as [| f frames IH] using rev_ind.
  - split; [intros _; repeat split |]. intros _. split; [discriminate |].
    intros earlier f Hf. now destruct earlier.
  - destruct IH as [IHnone IHready].
    rewrite track_snoc, existsb_app. cbn [existsb]. rewrite orb_false_r.
    pose proof (ready_track r frames) as Hrt.
    split.
    + intros Hnone. apply orb_false_iff in Hnone as [Hfs Hf].
      destruct f as [| fd raw]; [| discriminate].
      destruct (IHnone Hfs) as [Hp [Ha Hs]].
      destruct (undetected_state (track r frames)) as [Hp' [Ha' Hs']].
      now rewrite Hp', Ha', Hs'.
    + intros Hr. rewrite <- Hrt in Hr.
      destruct (IHready ltac:(now rewrite <- Hrt)) as [IHset _].
      split.
      * intros Hsome. destruct f as [| fd raw].
        -- rewrite orb_false_r in Hsome.
           destruct (undetected_state (track r frames)) as [-> [-> _]].
           now apply IHset.
        -- rewrite (updateHatPosition_targets _ fd raw Hr).
           split; reflexivity.
      * intros earlier f' Hlast.
        apply app_inj_tail in Hlast as [_ <-]. destruct f as [| fd raw].
        -- destruct (updateHatPosition_undetected _ Hr) as [h [_ ->]].
           eexists. split; reflexivity.
        -- rewrite (updateHatPosition_targets _ fd raw Hr).
           eexists. split; reflexivity.
Qed.

Lemma smooth3D_zero (t : Vec3) (previous : jsval Vec3) :
  Utils.smooth3D t previous 0 = t.
Proof.
  destruct previous as [| | p]; try reflexivity.
  destruct t as [x y z]. unfold Utils.smooth3D, Utils.smooth.
  cbn [vx vy vz]. f_equal; ring.
Qed.

Lemma smooth3D_one (t p : Vec3) : Utils.smooth3D t (Val p) 1 = p.
Proof.
  destruct p as [x y z]. unfold Utils.smooth3D, Utils.smooth.
  cbn [vx vy vz]. f_equal; ring.
Qed.

(** X7.  The two ends of the smoothing setting, for a renderer that
    holds a hat and a frame with a face.  With smoothing 0 the stored
    position, rotation and scale are the raw targets of the frame,
    whatever was stored before.  With smoothing 1 the scale keeps its
    stored value, and a position or rotation that was set keeps its
    value too: the hat no longer follows the face. *)
Theorem smoothing_extremes
  (r : HatRenderer.t)
  (fd : MediaPipeHandler.FaceData) (raw : list Landmark) :
  ready r = true ->
  let r' := HatRenderer.updateHatPosition r (MediaPipeHandler.Face fd raw) in
  let k := HatRenderer.smoothing (HatRenderer.settings r) in
  (k = 0 ->
   HatRenderer.smoothedPosition r'
   = Val (targetPosition (HatRenderer.settings r) fd) /\
   HatRenderer.smoothedRotation r' = Val (targetRotation fd) /\
   HatRenderer.smoothedScale r' = baseScale (HatRenderer.settings r) fd) /\
  (k = 1 ->
   HatRenderer.smoothedScale r' = HatRenderer.smoothedScale r /\
   (forall p, HatRenderer.smoothedPosition r = Val p ->
              HatRenderer.smoothedPosition r' = Val p) /\
   (forall a, HatRenderer.smoothedRotation r = Val a ->
              HatRenderer.smoothedRotation r' = Val a)).
Proof.
  intros Hr r' k. subst r'.
  rewrite (updateHatPosition_targets r fd raw Hr).
  cbn [HatRenderer.smoothedPosition HatRenderer.smoothedRotation
       HatRenderer.smoothedScale].
  fold k. split; intros ->.
  - rewrite !smooth3D_zero, smooth_present. repeat split. ring.
  - rewrite smooth_present. split; [ring |].
    split; intros v ->; now rewrite smooth3D_one.
Qed.

Lemma smoothing_extremes_witness :
  HatRenderer.smoothedScale
    (HatRenderer.updateHatPosition (renderer_with_smoothing 0) frameA)
  = baseScale (HatRenderer.settings (renderer_with_smoothing 0)) faceDataA.
Proof.
  destruct (smoothing_extremes (renderer_with_smoothing 0) faceDataA
              scenarioA) as [H0 _]; [reflexivity |].
  destruct H0 as [_ [_ H]]; [reflexivity | exact H].
Defined.

(** ** [updateSettings] *)

Lemma updateSettings_empty_eq (r : HatRenderer.t) :
  HatRenderer.updateSettings r
    {| HatRenderer.p_scale := None; HatRenderer.p_yOffset := None;
       HatRenderer.p_zOffset := None; HatRenderer.p_smoothing := None |}
  = r.
Proof. destruct r as [h l p a s [sc yo zo sm]]. reflexivity. Qed.

(** X11.  [updateSettings] touches the settings only: the hat, the
    loaded flag and the smoothed state are as before.  Each of the four
    settings takes the value the patch carries for it and keeps its own
    when the patch carries none, so two updates in a row are one update
    with the merged patch, and a patch without fields changes
    nothing. *)
Theorem updateSettings_merge
  (r : HatRenderer.t) (p q : HatRenderer.SettingsPatch) :
  HatRenderer.settings (HatRenderer.updateSettings r p)
  = {| HatRenderer.s_scale :=
         match HatRenderer.p_scale p with
         | Some v => v
         | None => HatRenderer.s_scale (HatRenderer.settings r)
         end;
       HatRenderer.yOffset :=
         match HatRenderer.p_yOffset p with
         | Some v => v
         | None => HatRenderer.yOffset (HatRenderer.settings r)
         end;
       HatRenderer.zOffset :=
         match HatRenderer.p_zOffset p with
         | Some v => v
         | None => HatRenderer.zOffset (HatRenderer.settings r)
         end;
       HatRenderer.smoothing :=
         match HatRenderer.p_smoothing p with
         | Some v => v
         | None => HatRenderer.smoothing (HatRenderer.settings r)
         end |} /\
  HatRenderer.updateSettings (HatRenderer.updateSettings r p) q
  = HatRenderer.updateSettings r (merge_patch p q) /\
  HatRenderer.updateSettings r (HatRenderer.mkPatch None None None None)
  = r /\
  HatRenderer.hat (HatRenderer.updateSettings r p) = HatRenderer.hat r /\
  HatRenderer.hatLoaded (HatRenderer.updateSettings r p)
  = HatRenderer.hatLoaded r /\
  HatRenderer.smoothedPosition (HatRenderer.updateSettings r p)
  = HatRenderer.smoothedPosition r /\
  HatRenderer.smoothedRotation (HatRenderer.updateSettings r p)
  = HatRenderer.smoothedRotation r /\
  HatRenderer.smoothedScale (HatRenderer.updateSettings r p)
  = HatRenderer.smoothedScale r.
Proof.
  split; [reflexivity |]. split.
  - destruct p as [[a |] [b |] [c |] [d |]], q as [[a' |] [b' |] [c' |] [d' |]];
      reflexivity.
  - split; [apply updateSettings_empty_eq |]. repeat split.
Qed.

(** ** The camera *)

(** X12.  For a canvas of positive width and height, the frustum after
    [resize] is [-w/h, w/h] across and [-1, 1] up, so that it is as
    many times wider than high as the canvas is, and its near and far
    planes are kept; [init] makes that frustum, with near plane 0.1 and
    far plane 1000, for such a canvas, and the 16:9 one for a canvas of
    width 0. *)
Theorem camera_frustum (camera : HatRenderer.Camera) (width height : R) :
  0 < width -> 0 < height ->
  HatRenderer.resize camera width height
  = {| HatRenderer.left := - (width / height);
       HatRenderer.right := width / height;
       HatRenderer.top := 1;
       HatRenderer.bottom := -1;
       HatRenderer.near := HatRenderer.near camera;
       HatRenderer.far := HatRenderer.far camera |} /\
  HatRenderer.init_camera width height
  = {| HatRenderer.left := - (width / height);
       HatRenderer.right := width / height;
       HatRenderer.top := 1;
       HatRenderer.bottom := -1;
       HatRenderer.near := 0.1;
       HatRenderer.far := 1000 |} /\
  HatRenderer.init_camera 0 height
  = {| HatRenderer.left := - (16 / 9);
       HatRenderer.right := 16 / 9;
       HatRenderer.top := 1;
       HatRenderer.bottom := -1;
       HatRenderer.near := 0.1;
       HatRenderer.far := 1000 |}.
Proof.
  intros Hw Hh. unfold HatRenderer.resize, HatRenderer.init_camera.
  assert (Hq : 0 < width / height) by now apply Rdiv_lt_0_compat.
  assert (Hor : js_or (width / height) (16 / 9) = width / height).
  { unfold js_or. destruct (Req_dec_T (width / height) 0); [lra | reflexivity]. }
  assert (Hor0 : js_or (0 / height) (16 / 9) = 16 / 9).
  { unfold js_or. destruct (Req_dec_T (0 / height) 0) as [_ | Hn];
      [reflexivity |]. exfalso. apply Hn. unfold Rdiv. ring. }
  cbv zeta. rewrite Hor, Hor0.
  split; [| split]; f_equal; lra.
Qed.

Lemma camera_frustum_witness :
  HatRenderer.right
    (HatRenderer.resize (HatRenderer.init_camera 300 150) 1280 720)
  = 1280 / 720.
Proof.
  destruct (camera_frustum (HatRenderer.init_camera 300 150) 1280 720)
    as [H _]; [lra | lra |].
  rewrite H. reflexivity.
Defined.

Lemma smooth3D_in_square (t : Vec3) (previous : jsval Vec3) (k : R) :
  0 <= k <= 1 ->
  in_square t ->
  (forall p, previous = Val p -> in_square p) ->
  in_square (Utils.smooth3D t previous k).
Proof.
  intros Hk Ht Hp. destruct previous as [| | p]; try exact Ht.
  specialize (Hp p eq_refl). unfold in_square in *.
  cbn [Utils.smooth3D vx vy]. rewrite !smooth_present.
  destruct Ht as [[? ?] [? ?]], Hp as [[? ?] [? ?]]. repeat split; nra.
Qed.

(** X13.  With no vertical offset and the smoothing setting in [0,1]:
    when the forehead of a frame lies in the unit square of the tracker
    and the stored position, if there is one, has x and y in [-1, 1],
    the hat is placed with x and y in [-1, 1] again, and that position
    is the one stored.  On a canvas at least as wide as high this is
    between the left and right planes and between the bottom and top
    planes of the camera. *)
Theorem hat_stays_in_view
  (camera : HatRenderer.Camera) (width height : R)
  (r : HatRenderer.t)
  (fd : MediaPipeHandler.FaceData) (raw : list Landmark) :
  0 < height -> height <= width ->
  ready r = true ->
  HatRenderer.yOffset (HatRenderer.settings r) = 0 ->
  0 <= HatRenderer.smoothing (HatRenderer.settings r) <= 1 ->
  0 <= vx (MediaPipeHandler.forehead fd) <= 1 ->
  0 <= vy (MediaPipeHandler.forehead fd) <= 1 ->
  (forall p, HatRenderer.smoothedPosition r = Val p -> in_square p) ->
  exists h,
    HatRenderer.hat
      (HatRenderer.updateHatPosition r (MediaPipeHandler.Face fd raw))
    = Val h /\
    HatRenderer.visible h = true /\
    in_square (HatRenderer.position h) /\
    in_view (HatRenderer.resize camera width height)
      (HatRenderer.position h) /\
    HatRenderer.smoothedPosition
      (HatRenderer.updateHatPosition r (MediaPipeHandler.Face fd raw))
    = Val (HatRenderer.position h).
Proof.
  intros Hh Hw Hr Hy Hk Hfx Hfy Hprev.
  rewrite (updateHatPosition_targets r fd raw Hr).
  eexists. split; [reflexivity |]. split; [reflexivity |].
  cbn [HatRenderer.position].
  assert (Hsq : in_square
                  (Utils.smooth3D (targetPosition (HatRenderer.settings r) fd)
                     (HatRenderer.smoothedPosition r)
                     (HatRenderer.smoothing (HatRenderer.settings r)))).
  { apply smooth3D_in_square; try assumption.
    unfold in_square, targetPosition. cbn [vx vy]. rewrite Hy.
    repeat split; lra. }
  split; [exact Hsq |]. split; [| reflexivity].
  assert (Haspect : 1 <= width / height).
  { apply Rmult_le_reg_r with height; [exact Hh |].
    unfold Rdiv. rewrite Rmult_assoc, Rinv_l by lra. lra. }
  destruct Hsq as [[? ?] [? ?]].
  unfold in_view, HatRenderer.resize.
  cbn [HatRenderer.left HatRenderer.right HatRenderer.top HatRenderer.bottom].
  repeat split; lra.
Qed.

Lemma hat_stays_in_view_witness :
  exists h,
    HatRenderer.hat (HatRenderer.updateHatPosition fresh_renderer frameA)
    = Val h /\
    in_view (HatRenderer.resize (HatRenderer.init_camera 300 150) 1280 720)
      (HatRenderer.position h).
Proof.
  destruct (hat_stays_in_view (HatRenderer.init_camera 300 150) 1280 720
              fresh_renderer faceDataA scenarioA)
    as [h [Hh [_ [_ [Hv _]]]]];
    try reflexivity;
    try (cbn [HatRenderer.smoothing HatRenderer.settings fresh_renderer
              HatRenderer.createFallbackHat HatRenderer.constructor
              MediaPipeHandler.forehead faceDataA vx vy]; lra).
  - intros p Hp. discriminate.
  - exists h. split; [exact Hh | exact Hv].
Defined.

(** X14.  After [destroy] the renderer holds no hat, although
    [hatLoaded] keeps its value: every frame, with a face or without,
    leaves the renderer as it is; and a second [destroy] changes
    nothing. *)
Theorem destroy_ends_tracking
  (r : HatRenderer.t) (frames : list MediaPipeHandler.FaceResults) :
  ready (HatRenderer.destroy r) = false /\
  HatRenderer.hatLoaded (HatRenderer.destroy r) = HatRenderer.hatLoaded r /\
  track (HatRenderer.destroy r) frames = HatRenderer.destroy r /\
  HatRenderer.destroy (HatRenderer.destroy r) = HatRenderer.destroy r.
Proof.
  split; [reflexivity |]. split; [reflexivity |]. split; [| reflexivity].
  induction frames as [| f frames IH] using rev_ind; [reflexivity |].
  rewrite track_snoc, IH. now apply updateHatPosition_not_ready.
Qed.

(** ** More on pose extraction *)

Lemma extractFaceData_explicit
  (lms : list Landmark)
  (noseTip forehead chin leftEye rightEye leftTemple rightTemple : Landmark) :
  nth_error lms MediaPipeHandler.landmarks.noseTip = Some noseTip ->
  nth_error lms MediaPipeHandler.landmarks.foreheadTop = Some forehead ->
  nth_error lms MediaPipeHandler.landmarks.chin = Some chin ->
  nth_error lms MediaPipeHandler.landmarks.leftEye = Some leftEye ->
  nth_error lms MediaPipeHandler.landmarks.rightEye = Some rightEye ->
  nth_error lms MediaPipeHandler.landmarks.leftTemple = Some leftTemple ->
  nth_error lms MediaPipeHandler.landmarks.rightTemple = Some rightTemple ->
  MediaPipeHandler.extractFaceData lms
  = Ok {| MediaPipeHandler.center :=
            {| vx := (vx leftEye + vx rightEye) / 2;
               vy := (vy leftEye + vy rightEye) / 2;
               vz := (vz leftEye + vz rightEye) / 2 |};
          MediaPipeHandler.headTop :=
            {| vx := vx forehead;
               vy := vy forehead - (vy chin - vy forehead) * 0.3;
               vz := vz forehead |};
          MediaPipeHandler.forehead := forehead;
          MediaPipeHandler.faceWidth :=
            Utils.distance3D leftTemple rightTemple;
          MediaPipeHandler.rotation :=
            {| MediaPipeHandler.pitch :=
                 atan2 (vz noseTip - (vz forehead + vz chin) / 2)
                       (vy chin - vy forehead);
               MediaPipeHandler.yaw :=
                 atan2 (vz noseTip - (vz leftEye + vz rightEye) / 2)
                       (vx noseTip - (vx leftEye + vx rightEye) / 2)
                 - PI / 2;
               MediaPipeHandler.roll :=
                 atan2 (vy rightEye - vy leftEye)
                       (vx rightEye - vx leftEye) |} |}.
Proof.
  intros Hn Hf Hc Hl Hr Hlt Hrt.
  destruct (extractFaceData_present _ _ _ _ _ _ Hn Hf Hc Hl Hr _ _ Hlt Hrt)
    as [rot [Hrot ->]].
  rewrite (calculateHeadRotation_present _ _ _ _ _ _ Hn Hf Hc Hl Hr) in Hrot.
  now injection Hrot as <-.
Qed.

Lemma complete_roles (lms : list Landmark) :
  complete lms ->
  exists n f c l r lt rt,
    nth_error lms MediaPipeHandler.landmarks.noseTip = Some n /\
    nth_error lms MediaPipeHandler.landmarks.foreheadTop = Some f /\
    nth_error lms MediaPipeHandler.landmarks.chin = Some c /\
    nth_error lms MediaPipeHandler.landmarks.leftEye = Some l /\
    nth_error lms MediaPipeHandler.landmarks.rightEye = Some r /\
    nth_error lms MediaPipeHandler.landmarks.leftTemple = Some lt /\
    nth_error lms MediaPipeHandler.landmarks.rightTemple = Some rt.
Proof.
  intros Hc.
  destruct (Hc MediaPipeHandler.landmarks.noseTip) as [n Hn];
    [simpl; tauto |].
  destruct (Hc MediaPipeHandler.landmarks.foreheadTop) as [f Hf];
    [simpl; tauto |].
  destruct (Hc MediaPipeHandler.landmarks.chin) as [c Hch]; [simpl; tauto |].
  destruct (Hc MediaPipeHandler.landmarks.leftEye) as [l Hl];
    [simpl; tauto |].
  destruct (Hc MediaPipeHandler.landmarks.rightEye) as [r Hr];
    [simpl; tauto |].
  destruct (Hc MediaPipeHandler.landmarks.leftTemple) as [lt Hlt];
    [simpl; tauto |].
  destruct (Hc MediaPipeHandler.landmarks.rightTemple) as [rt Hrt];
    [simpl; tauto |].
  exists n, f, c, l, r, lt, rt. repeat split; assumption.
Qed.

Lemma complete_length (lms : list Landmark) :
  complete lms <-> (356 < length lms)%nat.
Proof.
  split.
  - intros Hc.
    destruct (Hc MediaPipeHandler.landmarks.rightTemple) as [rt Hrt];
      [simpl; tauto |].
    apply nth_error_Some. unfold MediaPipeHandler.landmarks.rightTemple in Hrt.
    rewrite Hrt. discriminate.
  - intros Hlen i Hi.
    assert (Hi' : (i <= 356)%nat).
    { simpl in Hi. unfold_roles.
      repeat (destruct Hi as [<- | Hi]; [unfold_roles; lia |]).
      contradiction. }
    destruct (nth_error lms i) as [l |] eqn:E; [now exists l |].
    apply nth_error_None in E. lia.
Qed.

Lemma missing_length (lms : list Landmark) :
  missing_role lms <-> (length lms <= 356)%nat.
Proof.
  split.
  - intros [i [Hi Hnone]]. apply nth_error_None in Hnone.
    assert (Hi' : (i <= 356)%nat).
    { simpl in Hi.
      repeat (destruct Hi as [<- | Hi]; [unfold_roles; lia |]).
      contradiction. }
    lia.
  - intros Hlen. exists MediaPipeHandler.landmarks.rightTemple.
    split; [simpl; tauto |]. apply nth_error_None. exact Hlen.
Qed.

Lemma extraction_length_cases (lms : list Landmark) :
  ((356 < length lms)%nat ->
   exists fd, MediaPipeHandler.extractFaceData lms = Ok fd) /\
  ((length lms <= 356)%nat ->
   MediaPipeHandler.extractFaceData lms = Throw TypeError).
Proof.
  split.
  - intros Hlen. apply complete_length in Hlen.
    destruct (complete_roles lms Hlen)
      as [n [f [c [l [r [lt [rt [Hn [Hf [Hc [Hl [Hr [Hlt Hrt]]]]]]]]]]]]].
    eexists.
    apply (extractFaceData_explicit lms n f c l r lt rt); assumption.
  - intros Hlen. apply extractFaceData_missing. now apply missing_length.
Qed.

(** X15.  Extraction depends on the length of the landmark array
    alone: it gives face data when the array has more than 356 entries,
    the highest index read being that of the right temple, and throws
    when it has 356 or fewer; the forehead of the face data is the
    landmark of index 10. *)
Theorem extraction_by_length (lms : list Landmark) :
  ((356 < length lms)%nat <->
   exists fd, MediaPipeHandler.extractFaceData lms = Ok fd) /\
  ((length lms <= 356)%nat <->
   MediaPipeHandler.extractFaceData lms = Throw TypeError) /\
  (forall fd,
      MediaPipeHandler.extractFaceData lms = Ok fd ->
      nth_error lms 10 = Some (MediaPipeHandler.forehead fd)).
Proof.
  assert (Hok : (356 < length lms)%nat ->
                exists fd,
                  MediaPipeHandler.extractFaceData lms = Ok fd /\
                  nth_error lms 10 = Some (MediaPipeHandler.forehead fd)).
  { intros Hlen. apply complete_length in Hlen.
    destruct (complete_roles lms Hlen)
      as [n [f [c [l [r [lt [rt [Hn [Hf [Hc [Hl [Hr [Hlt Hrt]]]]]]]]]]]]].
    eexists. split.
    - apply (extractFaceData_explicit lms n f c l r lt rt); assumption.
    - exact Hf. }
  assert (Hthrow : (length lms <= 356)%nat ->
                   MediaPipeHandler.extractFaceData lms = Throw TypeError).
  { intros Hlen. apply extractFaceData_missing. now apply missing_length. }
  split; [| split].
  - split.
    + intros Hlen. destruct (Hok Hlen) as [fd [H _]]. now exists fd.
    + intros [fd Hfd]. destruct (Nat.lt_ge_cases 356 (length lms)) as [H | H];
        [exact H |]. rewrite (Hthrow H) in Hfd. discriminate.
  - split; [exact Hthrow |].
    intros Ht. destruct (Nat.lt_ge_cases 356 (length lms)) as [H | H];
      [| exact H]. destruct (Hok H) as [fd [Hfd _]].
    rewrite Hfd in Ht. discriminate.
  - intros fd Hfd. destruct (Nat.lt_ge_cases 356 (length lms)) as [H | H].
    + destruct (Hok H) as [fd' [Hfd' Hf]]. rewrite Hfd in Hfd'.
      now injection Hfd' as <-.
    + rewrite (Hthrow H) in Hfd. discriminate.
Qed.

(** X16.  What [processResults] hands to the results callback: the
    undetected object when the tracker gives no list of faces or an
    empty one; for a first face of more than 356 landmarks, a detected
    object that holds the extracted face data and that very array as raw
    landmarks; for a shorter first face nothing, the call throws.  Faces
    after the first play no part. *)
Theorem processResults_cases
  (lms : list Landmark) (rest : list (list Landmark)) :
  MediaPipeHandler.processResults (MediaPipeHandler.mkResults Null)
  = Ok MediaPipeHandler.NoFace /\
  MediaPipeHandler.processResults (MediaPipeHandler.mkResults Undefined)
  = Ok MediaPipeHandler.NoFace /\
  MediaPipeHandler.processResults (MediaPipeHandler.mkResults (Val []))
  = Ok MediaPipeHandler.NoFace /\
  MediaPipeHandler.processResults (MediaPipeHandler.mkResults (Val (lms :: rest)))
  = MediaPipeHandler.processResults (MediaPipeHandler.mkResults (Val [lms])) /\
  ((356 < length lms)%nat ->
   exists fd,
     MediaPipeHandler.extractFaceData lms = Ok fd /\
     MediaPipeHandler.processResults
       (MediaPipeHandler.mkResults (Val (lms :: rest)))
     = Ok (MediaPipeHandler.Face fd lms)) /\
  ((length lms <= 356)%nat ->
   MediaPipeHandler.processResults
     (MediaPipeHandler.mkResults (Val (lms :: rest)))
   = Throw TypeError).
Proof.
  repeat (split; [reflexivity |]).
  destruct (extraction_length_cases lms) as [Hok Hthrow].
  split.
  - intros Hlen. destruct (Hok Hlen) as [fd Hfd]. exists fd.
    split; [exact Hfd |].
    unfold MediaPipeHandler.processResults.
    cbn [MediaPipeHandler.multiFaceLandmarks]. now rewrite Hfd.
  - intros Hlen. unfold MediaPipeHandler.processResults.
    cbn [MediaPipeHandler.multiFaceLandmarks]. now rewrite (Hthrow Hlen).
Qed.

Lemma extractFaceData_complete (lms : list Landmark)
  (fd : MediaPipeHandler.FaceData) :
  MediaPipeHandler.extractFaceData lms = Ok fd -> complete lms.
Proof.
  intros Hfd. apply complete_length.
  destruct (Nat.lt_ge_cases 356 (length lms)) as [H | H]; [exact H |].
  destruct (extraction_length_cases lms) as [_ Hthrow].
  rewrite (Hthrow H) in Hfd. discriminate.
Qed.

Lemma atan2_right_half (y x : R) :
  0 < x ->
  atan2 y x = atan (y / x) /\
  - PI / 2 < atan2 y x < PI / 2 /\
  (0 < atan2 y x <-> 0 < y) /\
  (atan2 y x = 0 <-> y = 0).
Proof.
  intros Hx. unfold atan2. destruct (Rlt_dec 0 x) as [_ | F]; [| lra].
  assert (Hinv : 0 < / x) by now apply Rinv_0_lt_compat.
  split; [reflexivity |]. split; [apply atan_bound |]. split; split.
  - intros Hpos. destruct (Rle_or_lt y 0) as [Hy | Hy]; [| exact Hy].
    assert (Hq : y / x <= 0) by (unfold Rdiv; nra).
    pose proof (atan_sign_neg _ Hq). lra.
  - intros Hy. apply atan_sign_pos. unfold Rdiv. nra.
  - intros Hz. destruct (Rtotal_order y 0) as [Hy | [Hy | Hy]];
      [| exact Hy |].
    + assert (Hq : y / x < 0) by (unfold Rdiv; nra).
      pose proof (atan_increasing _ _ Hq) as Hlt. rewrite atan_0 in Hlt. lra.
    + assert (Hq : 0 < y / x) by (unfold Rdiv; nra).
      pose proof (atan_sign_pos _ Hq). lra.
  - intros ->. unfold Rdiv. rewrite Rmult_0_l. apply atan_0.
Qed.

Lemma atan2_down (y : R) : y < 0 -> atan2 y 0 = - PI / 2.
Proof.
  intros Hy. unfold atan2.
  destruct (Rlt_dec 0 0) as [F | _]; [lra |].
  destruct (Rlt_dec 0 0) as [F | _]; [lra |].
  destruct (Rlt_dec 0 y) as [F | _]; [lra |].
  destruct (Rlt_dec y 0) as [_ | F]; [reflexivity | lra].
Qed.

(** X19.  For an upright face, the chin below the forehead in the
    image and the right-eye landmark to the right of the left-eye one,
    pitch and roll lie strictly between -PI/2 and PI/2; the pitch is
    positive exactly when the nose tip is deeper than the mean depth of
    forehead and chin, and the roll is positive exactly when the
    right-eye landmark is lower in the image than the left-eye one. *)
Theorem upright_face_angles
  (lms : list Landmark) (fd : MediaPipeHandler.FaceData)
  (noseTip forehead chin leftEye rightEye : Landmark) :
  MediaPipeHandler.extractFaceData lms = Ok fd ->
  nth_error lms MediaPipeHandler.landmarks.noseTip = Some noseTip ->
  nth_error lms MediaPipeHandler.landmarks.foreheadTop = Some forehead ->
  nth_error lms MediaPipeHandler.landmarks.chin = Some chin ->
  nth_error lms MediaPipeHandler.landmarks.leftEye = Some leftEye ->
  nth_error lms MediaPipeHandler.landmarks.rightEye = Some rightEye ->
  vy forehead < vy chin ->
  vx leftEye < vx rightEye ->
  let rot := MediaPipeHandler.rotation fd in
  - PI / 2 < MediaPipeHandler.pitch rot < PI / 2 /\
  - PI / 2 < MediaPipeHandler.roll rot < PI / 2 /\
  (0 < MediaPipeHandler.pitch rot
   <-> (vz forehead + vz chin) / 2 < vz noseTip) /\
  (0 < MediaPipeHandler.roll rot <-> vy leftEye < vy rightEye) /\
  (MediaPipeHandler.roll rot = 0 <-> vy leftEye = vy rightEye).
Proof.
  intros Hfd Hn Hf Hc Hl Hr Hup Heyes.
  destruct (complete_roles lms (extractFaceData_complete lms fd Hfd))
    as [n [f [c [l [r [lt [rt [_ [_ [_ [_ [_ [Hlt Hrt]]]]]]]]]]]]].
  rewrite (extractFaceData_explicit lms noseTip forehead chin leftEye
             rightEye lt rt) in Hfd by assumption.
  injection Hfd as <-.
  cbn [MediaPipeHandler.rotation MediaPipeHandler.pitch MediaPipeHandler.roll].
  destruct (atan2_right_half (vz noseTip - (vz forehead + vz chin) / 2)
              (vy chin - vy forehead)) as [_ [Hb1 [Hs1 _]]]; [lra |].
  destruct (atan2_right_half (vy rightEye - vy leftEye)
              (vx rightEye - vx leftEye)) as [_ [Hb2 [Hs2 Hz2]]]; [lra |].
  split; [exact Hb1 |]. split; [exact Hb2 |].
  split; [rewrite Hs1; split; lra |].
  split; [rewrite Hs2; split; lra |].
  rewrite Hz2. split; lra.
Qed.

Lemma upright_face_angles_witness :
  - PI / 2 < MediaPipeHandler.pitch (MediaPipeHandler.rotation faceDataA)
  < PI / 2.
Proof.
  destruct (upright_face_angles scenarioA faceDataA
              (mkVec3 0.5 0.45 0.05) (mkVec3 0.5 0.3 0) (mkVec3 0.5 0.6 0)
              (mkVec3 0.4 0.4 0) (mkVec3 0.6 0.4 0)) as [H _];
    [ apply extractFaceData_scenarioA
    | unfold scenarioA; role_lookup
    | unfold scenarioA; role_lookup
    | unfold scenarioA; role_lookup
    | unfold scenarioA; role_lookup
    | unfold scenarioA; role_lookup
    | cbn [vy]; lra
    | cbn [vx]; lra
    | exact H ].
Defined.

(** X20.  When the nose tip is straight between the eyes across the
    image, the yaw takes one of three values: 0 when the nose tip is
    deeper than the middle of the eyes, -PI when it is less deep, and
    -PI/2 when it is as deep. *)
Theorem centred_nose_yaw
  (lms : list Landmark) (fd : MediaPipeHandler.FaceData)
  (noseTip leftEye rightEye : Landmark) :
  MediaPipeHandler.extractFaceData lms = Ok fd ->
  nth_error lms MediaPipeHandler.landmarks.noseTip = Some noseTip ->
  nth_error lms MediaPipeHandler.landmarks.leftEye = Some leftEye ->
  nth_error lms MediaPipeHandler.landmarks.rightEye = Some rightEye ->
  vx noseTip = (vx leftEye + vx rightEye) / 2 ->
  let yaw := MediaPipeHandler.yaw (MediaPipeHandler.rotation fd) in
  let eyes_z := (vz leftEye + vz rightEye) / 2 in
  (eyes_z < vz noseTip -> yaw = 0) /\
  (vz noseTip < eyes_z -> yaw = - PI) /\
  (vz noseTip = eyes_z -> yaw = - PI / 2).
Proof.
  intros Hfd Hn Hl Hr Hcentre.
  destruct (complete_roles lms (extractFaceData_complete lms fd Hfd))
    as [n [f [c [l [r [lt [rt [_ [Hf [Hc [_ [_ [Hlt Hrt]]]]]]]]]]]]].
  rewrite (extractFaceData_explicit lms noseTip f c leftEye rightEye lt rt)
    in Hfd by assumption.
  injection Hfd as <-.
  cbn [MediaPipeHandler.rotation MediaPipeHandler.yaw].
  replace (vx noseTip - (vx leftEye + vx rightEye) / 2) with 0 by lra.
  repeat split; intros Hz.
  - rewrite atan2_up by lra. lra.
  - rewrite atan2_down by lra. lra.
  - replace (vz noseTip - (vz leftEye + vz rightEye) / 2) with 0 by lra.
    rewrite atan2_zero_right by lra. lra.
Qed.

Lemma centred_nose_yaw_witness :
  MediaPipeHandler.yaw (MediaPipeHandler.rotation faceDataA) = 0.
Proof.
  destruct (centred_nose_yaw scenarioA faceDataA
              (mkVec3 0.5 0.45 0.05) (mkVec3 0.4 0.4 0) (mkVec3 0.6 0.4 0))
    as [H _];
    [ apply extractFaceData_scenarioA
    | unfold scenarioA; role_lookup
    | unfold scenarioA; role_lookup
    | unfold scenarioA; role_lookup
    | cbn [vx]; lra
    | apply H; cbn [vz]; lra ].
Defined.

Lemma distance3D_nonneg (p q : Vec3) : 0 <= Utils.distance3D p q.
Proof. unfold Utils.distance3D. cbv zeta. apply sqrt_pos. Qed.

Lemma distance3D_zero (p q : Vec3) : Utils.distance3D p q = 0 <-> p = q.
Proof.
  rewrite distance3D_euclid. split.
  - intros H. apply sqrt_eq_0 in H.
    + pose proof (Rle_0_sqr (vx q - vx p)).
      pose proof (Rle_0_sqr (vy q - vy p)).
      pose proof (Rle_0_sqr (vz q - vz p)).
      assert (Hx : (vx q - vx p)² = 0) by lra.
      assert (Hy : (vy q - vy p)² = 0) by lra.
      assert (Hz : (vz q - vz p)² = 0) by lra.
      apply Rsqr_0_uniq in Hx, Hy, Hz.
      destruct p as [px py pz], q as [qx qy qz]. cbn [vx vy vz] in *.
      f_equal; lra.
    + pose proof (Rle_0_sqr (vx q - vx p)).
      pose proof (Rle_0_sqr (vy q - vy p)).
      pose proof (Rle_0_sqr (vz q - vz p)). lra.
  - intros ->. replace ((vx q - vx q)² + (vy q - vy q)² + (vz q - vz q)²)
      with 0 by (unfold Rsqr; ring). apply sqrt_0.
Qed.

(** X21.  The face data extraction gives: the width is never negative
    and is 0 exactly when the two temple landmarks coincide; the centre
    is the same when the two eye landmarks are exchanged; the head top
    is straight above or below the forehead, at the same depth, and it
    is above it in the image exactly when the chin is below the
    forehead. *)
Theorem extracted_geometry
  (lms : list Landmark) (fd : MediaPipeHandler.FaceData)
  (forehead chin leftTemple rightTemple : Landmark) :
  MediaPipeHandler.extractFaceData lms = Ok fd ->
  nth_error lms MediaPipeHandler.landmarks.foreheadTop = Some forehead ->
  nth_error lms MediaPipeHandler.landmarks.chin = Some chin ->
  nth_error lms MediaPipeHandler.landmarks.leftTemple = Some leftTemple ->
  nth_error lms MediaPipeHandler.landmarks.rightTemple = Some rightTemple ->
  0 <= MediaPipeHandler.faceWidth fd /\
  (MediaPipeHandler.faceWidth fd = 0 <-> leftTemple = rightTemple) /\
  vx (MediaPipeHandler.headTop fd) = vx forehead /\
  vz (MediaPipeHandler.headTop fd) = vz forehead /\
  (vy (MediaPipeHandler.headTop fd) < vy forehead <-> vy forehead < vy chin) /\
  (forall lms' fd' l r,
      nth_error lms MediaPipeHandler.landmarks.leftEye = Some l ->
      nth_error lms MediaPipeHandler.landmarks.rightEye = Some r ->
      nth_error lms' MediaPipeHandler.landmarks.leftEye = Some r ->
      nth_error lms' MediaPipeHandler.landmarks.rightEye = Some l ->
      MediaPipeHandler.extractFaceData lms' = Ok fd' ->
      MediaPipeHandler.center fd' = MediaPipeHandler.center fd).
Proof.
  intros Hfd Hf Hc Hlt Hrt.
  destruct (complete_roles lms (extractFaceData_complete lms fd Hfd))
    as [n [f [c [l [r [lt [rt [Hn [_ [_ [Hl [Hr _]]]]]]]]]]]].
  pose proof Hfd as Hfd0.
  rewrite (extractFaceData_explicit lms n forehead chin l r leftTemple
             rightTemple) in Hfd by assumption.
  injection Hfd as <-.
  cbn [MediaPipeHandler.faceWidth MediaPipeHandler.headTop
       MediaPipeHandler.center vx vy vz].
  split; [apply distance3D_nonneg |].
  split; [apply distance3D_zero |].
  split; [reflexivity |]. split; [reflexivity |].
  split; [split; lra |].
  intros lms' fd' l' r' Hl1 Hr1 Hl' Hr' Hfd'.
  rewrite Hl in Hl1. rewrite Hr in Hr1.
  injection Hl1 as <-. injection Hr1 as <-.
  destruct (complete_roles lms' (extractFaceData_complete lms' fd' Hfd'))
    as [n' [f' [c' [l2 [r2 [lt' [rt' [Hn' [Hf' [Hc' [_ [_ [Hlt' Hrt']]]]]]]]]]]]].
  rewrite (extractFaceData_explicit lms' n' f' c' r l lt' rt') in Hfd'
    by assumption.
  injection Hfd' as <-. cbn [MediaPipeHandler.center].
  f_equal; lra.
Qed.

Lemma extracted_geometry_witness :
  0 <= MediaPipeHandler.faceWidth faceDataA /\
  vy (MediaPipeHandler.headTop faceDataA) < 0.3.
Proof.
  destruct (extracted_geometry scenarioA faceDataA
              (mkVec3 0.5 0.3 0) (mkVec3 0.5 0.6 0)
              (mkVec3 0.3 0.4 0) (mkVec3 0.7 0.4 0))
    as [Hw [_ [_ [_ [Hy _]]]]];
    try apply extractFaceData_scenarioA;
    try (unfold scenarioA; role_lookup).
  split; [exact Hw |]. apply Hy. cbn [vy]. lra.
Defined.

(** ** The drag handle of the controls panel *)

Lemma js_lt_true (a b : R) : a < b -> js_lt a b = true.
Proof. intros H. unfold js_lt. destruct (Rlt_dec a b); [reflexivity | lra]. Qed.

Lemma js_lt_false (a b : R) : b <= a -> js_lt a b = false.
Proof. intros H. unfold js_lt. destruct (Rlt_dec a b); [lra | reflexivity]. Qed.

Lemma onEnd_dragging (d : HatTryOnApp.DragHandle.t) :
  HatTryOnApp.DragHandle.isDragging d = true ->
  HatTryOnApp.DragHandle.onEnd d
  = {| HatTryOnApp.DragHandle.startY := HatTryOnApp.DragHandle.startY d;
       HatTryOnApp.DragHandle.currentY := HatTryOnApp.DragHandle.currentY d;
       HatTryOnApp.DragHandle.isDragging := false;
       HatTryOnApp.DragHandle.collapsed :=
         drag_outcome
           (HatTryOnApp.DragHandle.currentY d
            - HatTryOnApp.DragHandle.startY d)
           (HatTryOnApp.DragHandle.collapsed d) |}.
Proof.
  intros Hd. unfold HatTryOnApp.DragHandle.onEnd. rewrite Hd. cbn [negb].
  cbv zeta. f_equal.
  set (delta := HatTryOnApp.DragHandle.currentY d
                - HatTryOnApp.DragHandle.startY d).
  unfold drag_outcome, js_abs, js_lt, Rabs.
  destruct (Rcase_abs delta);
    destruct (Rlt_dec 50 delta); destruct (Rlt_dec delta (-50));
    destruct (Rlt_dec 0 delta); destruct (Rlt_dec delta 0);
    destruct (HatTryOnApp.DragHandle.collapsed d);
    repeat match goal with
           | |- context [Rlt_dec ?a ?b] => destruct (Rlt_dec a b)
           end;
    cbn [andb negb]; try reflexivity; exfalso; lra.
Qed.

Lemma moves_while_dragging (d : HatTryOnApp.DragHandle.t)
  (ys : list R) (y1 : R) :
  HatTryOnApp.DragHandle.isDragging d = true ->
  HatTryOnApp.DragHandle.handle_all d
    (map HatTryOnApp.DragHandle.Move (ys ++ [y1]))
  = {| HatTryOnApp.DragHandle.startY := HatTryOnApp.DragHandle.startY d;
       HatTryOnApp.DragHandle.currentY := y1;
       HatTryOnApp.DragHandle.isDragging := true;
       HatTryOnApp.DragHandle.collapsed :=
         HatTryOnApp.DragHandle.collapsed d |}.
Proof.
  revert d. induction ys as [| y ys IH]; intros d Hd.
  - cbn. unfold HatTryOnApp.DragHandle.onMove. now rewrite Hd.
  - cbn [app map HatTryOnApp.DragHandle.handle_all fold_left].
    fold (HatTryOnApp.DragHandle.handle_all
            (HatTryOnApp.DragHandle.handle d (HatTryOnApp.DragHandle.Move y))
            (map HatTryOnApp.DragHandle.Move (ys ++ [y1]))).
    rewrite IH.
    + cbn [HatTryOnApp.DragHandle.handle].
      unfold HatTryOnApp.DragHandle.onMove. now rewrite Hd.
    + cbn [HatTryOnApp.DragHandle.handle].
      unfold HatTryOnApp.DragHandle.onMove. now rewrite Hd.
Qed.

Lemma handle_all_app (d : HatTryOnApp.DragHandle.t)
  (l1 l2 : list HatTryOnApp.DragHandle.event) :
  HatTryOnApp.DragHandle.handle_all d (l1 ++ l2)
  = HatTryOnApp.DragHandle.handle_all
      (HatTryOnApp.DragHandle.handle_all d l1) l2.
Proof. unfold HatTryOnApp.DragHandle.handle_all. apply fold_left_app. Qed.

Lemma gesture_end (d : HatTryOnApp.DragHandle.t)
  (y0 : R) (ys : list R) (y1 : R) :
  HatTryOnApp.DragHandle.handle_all d (gesture y0 (ys ++ [y1]))
  = {| HatTryOnApp.DragHandle.startY := y0;
       HatTryOnApp.DragHandle.currentY := y1;
       HatTryOnApp.DragHandle.isDragging := false;
       HatTryOnApp.DragHandle.collapsed :=
         drag_outcome (y1 - y0) (HatTryOnApp.DragHandle.collapsed d) |}.
Proof.
  unfold gesture.
  change (HatTryOnApp.DragHandle.Start y0
            :: map HatTryOnApp.DragHandle.Move (ys ++ [y1])
            ++ [HatTryOnApp.DragHandle.End_])
    with ([HatTryOnApp.DragHandle.Start y0]
            ++ map HatTryOnApp.DragHandle.Move (ys ++ [y1])
            ++ [HatTryOnApp.DragHandle.End_]).
  rewrite !handle_all_app.
  change (HatTryOnApp.DragHandle.handle_all d [HatTryOnApp.DragHandle.Start y0])
    with (HatTryOnApp.DragHandle.onStart y0 d).
  rewrite moves_while_dragging by reflexivity.
  cbn [HatTryOnApp.DragHandle.handle_all fold_left
       HatTryOnApp.DragHandle.handle].
  now rewrite onEnd_dragging.
Qed.

(** X22.  A drag of the handle, a press at [y0], moves that end at
    [y1] and a release, decides the panel by the distance [y1 - y0]
    alone, whatever came before: more than 50 down leaves the panel
    collapsed, more than 50 up leaves it expanded, and a shorter drag
    leaves it as it was.  The click that a mouse sends after the release
    flips the panel only when the distance is below 5, so one press and
    release never changes the panel twice. *)
Theorem drag_gesture (d : HatTryOnApp.DragHandle.t)
  (y0 : R) (ys : list R) (y1 : R) :
  let d' := HatTryOnApp.DragHandle.handle_all d (gesture y0 (ys ++ [y1])) in
  let d'' := HatTryOnApp.DragHandle.handle_all d
               (gesture y0 (ys ++ [y1]) ++ [HatTryOnApp.DragHandle.Click]) in
  HatTryOnApp.DragHandle.isDragging d' = false /\
  (50 < y1 - y0 -> HatTryOnApp.DragHandle.collapsed d' = true) /\
  (y1 - y0 < -50 -> HatTryOnApp.DragHandle.collapsed d' = false) /\
  (-50 <= y1 - y0 <= 50 ->
   HatTryOnApp.DragHandle.collapsed d' = HatTryOnApp.DragHandle.collapsed d) /\
  (Rabs (y1 - y0) < 5 ->
   HatTryOnApp.DragHandle.collapsed d''
   = negb (HatTryOnApp.DragHandle.collapsed d)) /\
  (5 <= Rabs (y1 - y0) ->
   HatTryOnApp.DragHandle.collapsed d''
   = HatTryOnApp.DragHandle.collapsed d').
Proof.
  cbv zeta. rewrite handle_all_app, gesture_end.
  cbn [HatTryOnApp.DragHandle.isDragging HatTryOnApp.DragHandle.collapsed
       HatTryOnApp.DragHandle.handle_all fold_left
       HatTryOnApp.DragHandle.handle].
  unfold HatTryOnApp.DragHandle.onClick.
  cbn [HatTryOnApp.DragHandle.currentY HatTryOnApp.DragHandle.startY].
  unfold js_abs.
  split; [reflexivity |].
  split; [intros H; unfold drag_outcome;
          destruct (Rlt_dec 50 (y1 - y0)); [reflexivity | lra] |].
  split; [intros H; unfold drag_outcome;
          destruct (Rlt_dec 50 (y1 - y0)); [lra |];
          destruct (Rlt_dec (y1 - y0) (-50)); [reflexivity | lra] |].
  assert (Hshort : -50 <= y1 - y0 <= 50 ->
                   drag_outcome (y1 - y0) (HatTryOnApp.DragHandle.collapsed d)
                   = HatTryOnApp.DragHandle.collapsed d).
  { intros H. unfold drag_outcome.
    destruct (Rlt_dec 50 (y1 - y0)); [lra |].
    destruct (Rlt_dec (y1 - y0) (-50)); [lra | reflexivity]. }
  split; [exact Hshort |]. split; intros H.
  - rewrite js_lt_true by exact H.
    cbn [HatTryOnApp.DragHandle.collapsed]. rewrite Hshort; [reflexivity |].
    unfold Rabs in H. destruct (Rcase_abs (y1 - y0)); lra.
  - rewrite js_lt_false by exact H. reflexivity.
Qed.

(** X23.  A press and release without a move in between is judged by
    the height where the pointer was at the last move of an earlier
    drag, which is 0 before any drag: the panel is decided by that
    height minus the height of the press.  So on a handle that was never
    dragged, a plain click more than 50 below the top of the window
    leaves the panel expanded, whether it was collapsed or not. *)
Theorem press_without_move (d : HatTryOnApp.DragHandle.t) (y0 : R) :
  HatTryOnApp.DragHandle.isDragging d = false ->
  let stale := HatTryOnApp.DragHandle.currentY d in
  let d' := HatTryOnApp.DragHandle.handle_all d
              [HatTryOnApp.DragHandle.Start y0;
               HatTryOnApp.DragHandle.End_] in
  HatTryOnApp.DragHandle.collapsed d'
  = drag_outcome (stale - y0) (HatTryOnApp.DragHandle.collapsed d) /\
  HatTryOnApp.DragHandle.currentY d' = stale /\
  (forall c,
      50 < y0 ->
      HatTryOnApp.DragHandle.collapsed
        (HatTryOnApp.DragHandle.handle_all (HatTryOnApp.DragHandle.setup c)
           [HatTryOnApp.DragHandle.Start y0;
            HatTryOnApp.DragHandle.End_;
            HatTryOnApp.DragHandle.Click])
      = false).
Proof.
  intros Hd. cbv zeta.
  cbn [HatTryOnApp.DragHandle.handle_all fold_left
       HatTryOnApp.DragHandle.handle].
  rewrite !onEnd_dragging by reflexivity.
  cbn [HatTryOnApp.DragHandle.collapsed HatTryOnApp.DragHandle.currentY
       HatTryOnApp.DragHandle.startY HatTryOnApp.DragHandle.onStart].
  split; [reflexivity |]. split; [reflexivity |].
  intros c Hy0. rewrite onEnd_dragging by reflexivity.
  unfold HatTryOnApp.DragHandle.onClick.
  cbn [HatTryOnApp.DragHandle.collapsed HatTryOnApp.DragHandle.currentY
       HatTryOnApp.DragHandle.startY HatTryOnApp.DragHandle.onStart
       HatTryOnApp.DragHandle.setup].
  rewrite js_lt_false.
  - cbn [HatTryOnApp.DragHandle.collapsed]. unfold drag_outcome.
    destruct (Rlt_dec 50 (0 - y0)); [lra |].
    destruct (Rlt_dec (0 - y0) (-50)); [reflexivity | lra].
  - unfold js_abs, Rabs. destruct (Rcase_abs (0 - y0)); lra.
Qed.

Lemma press_without_move_witness :
  HatTryOnApp.DragHandle.collapsed
    (HatTryOnApp.DragHandle.handle_all (HatTryOnApp.DragHandle.setup true)
       [HatTryOnApp.DragHandle.Start 600; HatTryOnApp.DragHandle.End_])
  = drag_outcome (0 - 600) true.
Proof.
  destruct (press_without_move (HatTryOnApp.DragHandle.setup true) 600)
    as [H _]; [reflexivity | exact H].
Defined.

(** ** The scale along the loop *)

Lemma processResults_width (results : MediaPipeHandler.Results)
  (f : MediaPipeHandler.FaceResults) :
  MediaPipeHandler.processResults results = Ok f ->
  width_not_negative (Val f).
Proof.
  intros Hp fd raw Hf. injection Hf as ->.
  unfold MediaPipeHandler.processResults in Hp.
  destruct (MediaPipeHandler.multiFaceLandmarks results) as [| | [| lms rest]];
    try discriminate.
  destruct (MediaPipeHandler.extractFaceData lms) as [fd' |] eqn:E;
    [| discriminate].
  cbn [bind] in Hp. injection Hp as <- _.
  destruct (complete_roles lms (extractFaceData_complete lms fd' E))
    as [n [f [c [l [r [lt [rt [Hn [Hf [Hc [Hl [Hr [Hlt Hrt]]]]]]]]]]]]].
  rewrite (extractFaceData_explicit lms n f c l r lt rt) in E by assumption.
  injection E as <-. apply distance3D_nonneg.
Qed.

Lemma updateHatPosition_scale_invariant
  (r : HatRenderer.t) (f : MediaPipeHandler.FaceResults) :
  0 <= HatRenderer.s_scale (HatRenderer.settings r) ->
  0 <= HatRenderer.smoothing (HatRenderer.settings r) <= 1 ->
  0 <= HatRenderer.smoothedScale r ->
  (forall h, HatRenderer.hat r = Val h -> 0 <= vx (HatRenderer.scale h)) ->
  width_not_negative (Val f) ->
  let r' := HatRenderer.updateHatPosition r f in
  0 <= HatRenderer.smoothedScale r' /\
  (forall h, HatRenderer.hat r' = Val h -> 0 <= vx (HatRenderer.scale h)).
Proof.
  intros Hsc Hk Hs Hh Hw. cbv zeta.
  destruct (ready r) eqn:Hr.
  - destruct f as [| fd raw].
    + destruct (updateHatPosition_undetected r Hr) as [h [Hhat ->]].
      cbn [HatRenderer.smoothedScale HatRenderer.hat].
      split; [exact Hs |]. intros h' Hh'. injection Hh' as <-.
      cbn [HatRenderer.with_visible HatRenderer.scale]. now apply Hh.
    + rewrite (updateHatPosition_targets r fd raw Hr).
      cbn [HatRenderer.smoothedScale HatRenderer.hat].
      assert (Hb : 0 <= baseScale (HatRenderer.settings r) fd).
      { unfold baseScale. specialize (Hw fd raw eq_refl). nra. }
      assert (Hnew : 0 <= Utils.smooth (baseScale (HatRenderer.settings r) fd)
                            (Val (HatRenderer.smoothedScale r))
                            (HatRenderer.smoothing (HatRenderer.settings r))).
      { rewrite smooth_present. nra. }
      split; [exact Hnew |]. intros h' Hh'. injection Hh' as <-.
      cbn [HatRenderer.scale HatRenderer.setScalar vx]. exact Hnew.
  - rewrite (updateHatPosition_not_ready r f Hr). split; assumption.
Qed.

Lemma renderLoop_scale_invariant
  (policy : HatTryOnApp.listener_policy) (ev : HatTryOnApp.tracker_event)
  (app app' : HatTryOnApp.t) :
  scale_invariant app ->
  HatTryOnApp.renderLoop policy ev app = HatTryOnApp.Rescheduled app' ->
  scale_invariant app'.
Proof.
  intros Hinv Hloop. unfold HatTryOnApp.renderLoop in Hloop.
  destruct (negb (HatTryOnApp.isRunning app)); [discriminate |].
  destruct (HatTryOnApp.processFrame policy ev app) as [app1 |] eqn:Hpf;
    [| discriminate].
  assert (Hinv1 : scale_invariant app1).
  { unfold HatTryOnApp.processFrame in Hpf.
    destruct ev as [| results]; [now injection Hpf as <- |].
    destruct (MediaPipeHandler.processResults results) as [f |] eqn:Hp.
    - injection Hpf as <-. destruct Hinv as [H1 [H2 [H3 [H4 _]]]].
      repeat split; try assumption; try apply H2.
      cbn [HatTryOnApp.currentFaceData HatTryOnApp.onFaceResults].
      exact (processResults_width results f Hp).
    - destruct policy; [discriminate | now injection Hpf as <-]. }
  injection Hloop as <-.
  destruct Hinv1 as [H1 [H2 [H3 [H4 H5]]]].
  destruct (HatTryOnApp.currentFaceData app1) as [| | f] eqn:Hf;
    try (repeat split; try assumption; try apply H2; now rewrite Hf).
  destruct (updateHatPosition_scale_invariant
              (HatTryOnApp.hatRenderer app1) f H1 H2 H3 H4 H5) as [Hs Hh].
  unfold scale_invariant. cbn [HatTryOnApp.hatRenderer
                                 HatTryOnApp.currentFaceData].
  rewrite settings_updateHatPosition.
  repeat split; try assumption; try apply H2.
Qed.

(** X25.  For an application whose scale setting is not negative,
    whose smoothing setting is in [0,1], and whose stored scale, hat
    scale and face width start out not negative: however many frames the
    loop runs and whatever the tracker delivers, the stored scale and
    the scale set on the hat are never negative. *)
Theorem scale_never_negative
  (policy : HatTryOnApp.listener_policy)
  (events : list HatTryOnApp.tracker_event) (app app' : HatTryOnApp.t) :
  scale_invariant app ->
  HatTryOnApp.run policy events app = HatTryOnApp.Rescheduled app' ->
  0 <= HatRenderer.smoothedScale (HatTryOnApp.hatRenderer app') /\
  (forall h,
      HatRenderer.hat (HatTryOnApp.hatRenderer app') = Val h ->
      0 <= vx (HatRenderer.scale h)) /\
  HatRenderer.settings (HatTryOnApp.hatRenderer app')
  = HatRenderer.settings (HatTryOnApp.hatRenderer app).
Proof.
  revert app. induction events as [| ev events IH]; intros app Hinv Hrun.
  - cbn in Hrun. injection Hrun as <-.
    destruct Hinv as [_ [_ [Hs [Hh _]]]]. repeat split; assumption.
  - cbn [HatTryOnApp.run] in Hrun.
    destruct (HatTryOnApp.renderLoop policy ev app) as [a | a | e] eqn:Hloop;
      try discriminate.
    destruct (IH a (renderLoop_scale_invariant policy ev app a Hinv Hloop)
                Hrun) as [Hs [Hh Hset]].
    split; [exact Hs |]. split; [exact Hh |]. rewrite Hset.
    clear - Hloop. unfold HatTryOnApp.renderLoop in Hloop.
    destruct (negb (HatTryOnApp.isRunning app)); [discriminate |].
    destruct (HatTryOnApp.processFrame policy ev app) as [app1 |] eqn:Hpf;
      [| discriminate].
    assert (Hr1 : HatTryOnApp.hatRenderer app1 = HatTryOnApp.hatRenderer app).
    { unfold HatTryOnApp.processFrame in Hpf.
      destruct ev as [| results]; [now injection Hpf as <- |].
      destruct (MediaPipeHandler.processResults results) as [f |].
      - now injection Hpf as <-.
      - destruct policy; [discriminate | now injection Hpf as <-]. }
    injection Hloop as <-.
    destruct (HatTryOnApp.currentFaceData app1); try now rewrite Hr1.
    cbn [HatTryOnApp.hatRenderer].
    now rewrite settings_updateHatPosition, Hr1.
Qed.

Lemma scale_invariant_started :
  scale_invariant (HatTryOnApp.startCamera HatTryOnApp.init).
Proof.
  unfold scale_invariant. cbv zeta.
  cbn [HatTryOnApp.hatRenderer HatTryOnApp.startCamera HatTryOnApp.init
       HatTryOnApp.currentFaceData HatRenderer.settings
       HatRenderer.createFallbackHat HatRenderer.constructor
       HatRenderer.s_scale HatRenderer.smoothing HatRenderer.smoothedScale
       HatRenderer.hat].
  split; [lra |]. split; [lra |]. split; [lra |]. split.
  - intros h Hh. injection Hh as <-.
    cbn [HatRenderer.scale HatRenderer.new_group HatRenderer.setScalar vx].
    lra.
  - intros fd raw Hf. discriminate.
Qed.

Lemma scale_never_negative_witness :
  0 <= HatRenderer.smoothedScale (HatTryOnApp.hatRenderer tracking_app).
Proof.
  destruct (scale_never_negative HatTryOnApp.Rethrows
              [HatTryOnApp.Delivers (one_face scenarioA)]
              (HatTryOnApp.startCamera HatTryOnApp.init) tracking_app)
    as [H _].
  - apply scale_invariant_started.
  - cbn [HatTryOnApp.run]. now rewrite renderLoop_scenarioA.
  - exact H.
Defined.

(** ** [Utils.debounce] *)

Section Debounce.

Context {A : Type}.
Variable wait : R.

Lemma executedFunction_one_timer (now : R) (a : A) (d : Utils.Debounce.t A) :
  one_timer d ->
  Utils.Debounce.executedFunction wait now a d
  = {| Utils.Debounce.timeout := Val (Utils.Debounce.next_id d);
       Utils.Debounce.timers :=
         [Utils.Debounce.mkTimer (Utils.Debounce.next_id d) (now + wait) a];
       Utils.Debounce.next_id := S (Utils.Debounce.next_id d);
       Utils.Debounce.calls := Utils.Debounce.calls d |}.
Proof.
  intros [Hnil | [tm [Hone Hname]]]; unfold Utils.Debounce.executedFunction.
  - rewrite Hnil. destruct (Utils.Debounce.timeout d); reflexivity.
  - rewrite Hone, Hname. cbn [Utils.Debounce.clearTimeout filter].
    now rewrite Nat.eqb_refl.
Qed.

Lemma run_due_none (now : R) (d : Utils.Debounce.t A) :
  Utils.Debounce.timers d = [] -> Utils.Debounce.run_due now d = d.
Proof. intros H. unfold Utils.Debounce.run_due. now rewrite H. Qed.

Lemma run_due_early (now : R) (d : Utils.Debounce.t A)
  (tm : Utils.Debounce.timer A) :
  Utils.Debounce.timers d = [tm] ->
  now < Utils.Debounce.due tm ->
  Utils.Debounce.run_due now d = d.
Proof.
  intros H Hearly. unfold Utils.Debounce.run_due. rewrite H.
  cbn [length Utils.Debounce.run_due_aux]. rewrite H. cbn [find].
  unfold js_le. destruct (Rle_dec (Utils.Debounce.due tm) now); [lra |].
  reflexivity.
Qed.

Lemma run_due_fires (now : R) (d : Utils.Debounce.t A)
  (tm : Utils.Debounce.timer A) :
  Utils.Debounce.timers d = [tm] ->
  Utils.Debounce.due tm <= now ->
  Utils.Debounce.run_due now d
  = {| Utils.Debounce.timeout := Utils.Debounce.timeout d;
       Utils.Debounce.timers := [];
       Utils.Debounce.next_id := Utils.Debounce.next_id d;
       Utils.Debounce.calls :=
         Utils.Debounce.calls d ++ [(now, Utils.Debounce.args tm)] |}.
Proof.
  intros H Hdue. unfold Utils.Debounce.run_due. rewrite H.
  cbn [length Utils.Debounce.run_due_aux]. rewrite H. cbn [find filter].
  unfold js_le. destruct (Rle_dec (Utils.Debounce.due tm) now); [| lra].
  rewrite Nat.eqb_refl. cbn [negb]. unfold Utils.Debounce.later.
  cbn [Utils.Debounce.timeout Utils.Debounce.timers Utils.Debounce.next_id
       Utils.Debounce.calls].
  destruct (Utils.Debounce.timeout d); reflexivity.
Qed.

Lemma step_one_timer (d : Utils.Debounce.t A) (e : Utils.Debounce.event A) :
  one_timer d -> one_timer (Utils.Debounce.step wait d e).
Proof.
  intros Hinv. destruct e as [now a | now]; cbn [Utils.Debounce.step].
  - rewrite (executedFunction_one_timer now a d Hinv).
    right. eexists. split; reflexivity.
  - destruct Hinv as [Hnil | [tm [Hone Hname]]].
    + rewrite (run_due_none now d Hnil). now left.
    + destruct (Rle_or_lt (Utils.Debounce.due tm) now) as [Hdue | Hearly].
      * rewrite (run_due_fires now d tm Hone Hdue). now left.
      * rewrite (run_due_early now d tm Hone Hearly).
        right. now exists tm.
Qed.

Lemma steps_snoc (d : Utils.Debounce.t A)
  (events : list (Utils.Debounce.event A)) (e : Utils.Debounce.event A) :
  Utils.Debounce.steps wait d (events ++ [e])
  = Utils.Debounce.step wait (Utils.Debounce.steps wait d events) e.
Proof. unfold Utils.Debounce.steps. now rewrite fold_left_app. Qed.

Lemma steps_one_timer (d : Utils.Debounce.t A)
  (events : list (Utils.Debounce.event A)) :
  one_timer d -> one_timer (Utils.Debounce.steps wait d events).
Proof.
  intros Hinv. induction events as [| e events IH] using rev_ind;
    [exact Hinv |].
  rewrite steps_snoc. now apply step_one_timer.
Qed.

(** X26.  However the debounced function is called and whenever the
    runtime runs timers, at most one of its timers is pending.  Right
    after a call the pending timer is the one of that call, due [wait]
    after it and holding its arguments, the timer of an earlier call
    being cancelled; and a turn of the runtime that comes before the
    pending timer is due runs nothing. *)
Theorem debounce_one_timer (first_id : nat)
  (events : list (Utils.Debounce.event A)) :
  let d := Utils.Debounce.steps wait (Utils.Debounce.create first_id) events in
  (length (Utils.Debounce.timers d) <= 1)%nat /\
  (forall now a,
      exists i,
        Utils.Debounce.timers
          (Utils.Debounce.step wait d (Utils.Debounce.Call now a))
        = [Utils.Debounce.mkTimer i (now + wait) a] /\
        Utils.Debounce.calls
          (Utils.Debounce.step wait d (Utils.Debounce.Call now a))
        = Utils.Debounce.calls d) /\
  (forall now,
      (forall tm, In tm (Utils.Debounce.timers d) ->
                  now < Utils.Debounce.due tm) ->
      Utils.Debounce.step wait d (Utils.Debounce.Idle now) = d).
Proof.
  cbv zeta.
  assert (Hinv : one_timer
                   (Utils.Debounce.steps wait (Utils.Debounce.create first_id)
                      events))
    by (apply steps_one_timer; now left).
  set (d := Utils.Debounce.steps wait (Utils.Debounce.create first_id) events)
    in *.
  split; [| split].
  - destruct Hinv as [-> | [tm [-> _]]]; cbn; lia.
  - intros now a. cbn [Utils.Debounce.step].
    rewrite (executedFunction_one_timer now a d Hinv).
    eexists. split; reflexivity.
  - intros now Hearly. cbn [Utils.Debounce.step].
    destruct Hinv as [Hnil | [tm [Hone _]]].
    + now apply run_due_none.
    + apply (run_due_early now d tm Hone). apply Hearly.
      rewrite Hone. now left.
Qed.

Lemma steps_calls (d : Utils.Debounce.t A) (cs : list (R * A)) :
  one_timer d ->
  Utils.Debounce.calls
    (Utils.Debounce.steps wait d
       (map (fun c => Utils.Debounce.Call (fst c) (snd c)) cs))
  = Utils.Debounce.calls d.
Proof.
  intros Hinv. induction cs as [| c cs IH] using rev_ind; [reflexivity |].
  rewrite map_app. cbn [map]. rewrite steps_snoc. cbn [Utils.Debounce.step].
  rewrite executedFunction_one_timer by now apply steps_one_timer.
  exact IH.
Qed.

(** X27.  A burst of calls of the debounced function, with no turn of
    the runtime in between, followed by a turn of the runtime at a time
    [T]: when [T] is at least [wait] after the last call, [func] runs
    once, at [T], with the arguments of the last call, and no timer is
    left; when [T] is earlier, [func] does not run.  Calls that [func]
    had before the burst are not repeated. *)
Theorem debounce_burst (first_id : nat)
  (before : list (Utils.Debounce.event A))
  (burst : list (R * A)) (t : R) (a : A) (T : R) :
  let d0 := Utils.Debounce.steps wait (Utils.Debounce.create first_id)
              before in
  let d := Utils.Debounce.steps wait d0
             (map (fun c => Utils.Debounce.Call (fst c) (snd c))
                (burst ++ [(t, a)])
              ++ [Utils.Debounce.Idle T]) in
  (t + wait <= T ->
   Utils.Debounce.calls d = Utils.Debounce.calls d0 ++ [(T, a)] /\
   Utils.Debounce.timers d = []) /\
  (T < t + wait ->
   Utils.Debounce.calls d = Utils.Debounce.calls d0 /\
   exists i, Utils.Debounce.timers d = [Utils.Debounce.mkTimer i (t + wait) a]).
Proof.
  cbv zeta.
  set (d0 := Utils.Debounce.steps wait (Utils.Debounce.create first_id)
               before).
  assert (Hinv0 : one_timer d0) by (apply steps_one_timer; now left).
  rewrite steps_snoc, map_app. cbn [map fst snd]. rewrite steps_snoc.
  set (d1 := Utils.Debounce.steps wait d0
               (map (fun c => Utils.Debounce.Call (fst c) (snd c)) burst)).
  assert (Hinv1 : one_timer d1) by (apply steps_one_timer; exact Hinv0).
  assert (Hcalls1 : Utils.Debounce.calls d1 = Utils.Debounce.calls d0)
    by (apply steps_calls; exact Hinv0).
  cbn [Utils.Debounce.step].
  rewrite (executedFunction_one_timer t a d1 Hinv1).
  split; intros HT.
  - rewrite run_due_fires
      with (tm := Utils.Debounce.mkTimer (Utils.Debounce.next_id d1)
                    (t + wait) a);
      [| reflexivity | exact HT].
    cbn [Utils.Debounce.calls Utils.Debounce.timers Utils.Debounce.args].
    now rewrite Hcalls1.
  - rewrite run_due_early
      with (tm := Utils.Debounce.mkTimer (Utils.Debounce.next_id d1)
                    (t + wait) a);
      [| reflexivity | exact HT].
    cbn [Utils.Debounce.calls Utils.Debounce.timers].
    split; [exact Hcalls1 |]. eexists. reflexivity.
Qed.

End Debounce.

Lemma debounce_burst_witness :
  Utils.Debounce.calls
    (Utils.Debounce.steps 100 (Utils.Debounce.create 1)
       [Utils.Debounce.Call 0 1280; Utils.Debounce.Call 40 1300;
        Utils.Debounce.Call 90 1366; Utils.Debounce.Idle 200])
  = [(200, 1366)].
Proof.
  destruct (debounce_burst (A := R) 100 1 [] [(0, 1280); (40, 1300)]
              90 1366 200) as [H _].
  destruct H as [H _]; [lra | exact H].
Defined.

(** ** The life cycle of the face-mesh handler *)

Lemma lifecycle_ready_has_tracker
  (ops : list MediaPipeHandler.lifecycle) :
  let h := fold_left MediaPipeHandler.apply_lifecycle ops
             MediaPipeHandler.constructor in
  MediaPipeHandler.isReady h = true -> MediaPipeHandler.faceMesh h = Val tt.
Proof.
  cbv zeta. induction ops as [| op ops IH] using rev_ind; [discriminate |].
  rewrite fold_left_app. cbn [fold_left].
  set (h := fold_left MediaPipeHandler.apply_lifecycle ops
              MediaPipeHandler.constructor) in *.
  destruct op as [[|] [|] |]; cbn; try reflexivity; try exact IH.
  unfold MediaPipeHandler.destroy.
  destruct (MediaPipeHandler.faceMesh h); discriminate.
Qed.

(** X28.  As long as every [init] runs to its end before the next call
    on the handler, whichever way it goes, a ready handler holds a
    tracker: [processFrame] returns without sending when the handler is
    not ready or the video has no width, and otherwise gives what the
    tracker's [send] gives; after [destroy] no frame is sent.  But a
    [destroy] that comes while [init] awaits the tracker leaves, once
    [init] goes on, a handler marked ready without a tracker, and
    [processFrame] then throws for every video that has a width. *)
Theorem destroy_during_init
  (ops : list MediaPipeHandler.lifecycle) (videoWidth : R)
  (send : outcome unit) :
  let h := fold_left MediaPipeHandler.apply_lifecycle ops
             MediaPipeHandler.constructor in
  (MediaPipeHandler.isReady h = true ->
   MediaPipeHandler.faceMesh h = Val tt) /\
  MediaPipeHandler.processFrame h videoWidth send
  = (if MediaPipeHandler.isReady h && negb (js_not videoWidth)
     then bind send (fun _ => Ok true)
     else Ok false) /\
  MediaPipeHandler.processFrame (MediaPipeHandler.destroy h) videoWidth send
  = Ok false /\
  (videoWidth <> 0 ->
   let h' := fst (MediaPipeHandler.init_end true
                    (MediaPipeHandler.destroy
                       (MediaPipeHandler.init_begin true h))) in
   MediaPipeHandler.isReady h' = true /\
   MediaPipeHandler.faceMesh h' = Null /\
   MediaPipeHandler.processFrame h' videoWidth send = Throw TypeError).
Proof.
  cbv zeta. pose proof (lifecycle_ready_has_tracker ops) as Hinv.
  cbv zeta in Hinv.
  set (h := fold_left MediaPipeHandler.apply_lifecycle ops
              MediaPipeHandler.constructor) in *.
  split; [exact Hinv |]. split; [| split].
  - unfold MediaPipeHandler.processFrame.
    destruct (MediaPipeHandler.isReady h) eqn:Hr; cbn [negb orb andb];
      [| reflexivity].
    destruct (js_not videoWidth); [reflexivity |].
    now rewrite (Hinv eq_refl).
  - unfold MediaPipeHandler.processFrame, MediaPipeHandler.destroy.
    destruct (MediaPipeHandler.faceMesh h); reflexivity.
  - intros Hw.
    assert (Hnot : js_not videoWidth = false).
    { unfold js_not. destruct (Req_dec_T videoWidth 0); [contradiction |].
      reflexivity. }
    unfold MediaPipeHandler.processFrame.
    cbn [MediaPipeHandler.init_end MediaPipeHandler.init_begin
         MediaPipeHandler.destroy MediaPipeHandler.faceMesh
         MediaPipeHandler.isReady fst negb orb].
    rewrite Hnot. repeat split.
Qed.

(** ** Frames without news from the tracker *)

(** X29.  While the tracker delivers nothing, each run of the loop
    applies the face data it already holds once more: [n] such runs
    leave the renderer where [n] frames with that same face would, so
    the hat keeps closing in on the last target at the pace of the
    loop. *)
Theorem silent_frames_reapply
  (policy : HatTryOnApp.listener_policy) (app : HatTryOnApp.t)
  (f : MediaPipeHandler.FaceResults) (n : nat) :
  HatTryOnApp.isRunning app = true ->
  HatTryOnApp.currentFaceData app = Val f ->
  HatTryOnApp.run policy (repeat HatTryOnApp.Silent n) app
  = HatTryOnApp.Rescheduled
      {| HatTryOnApp.isRunning := true;
         HatTryOnApp.currentFaceData := Val f;
         HatTryOnApp.hatRenderer :=
           track (HatTryOnApp.hatRenderer app) (repeat f n) |}.
Proof.
  revert app. induction n as [| n IH]; intros app Hrun Hf.
  - destruct app as [running fd r]. cbn in *. now subst.
  - cbn [repeat HatTryOnApp.run].
    unfold HatTryOnApp.renderLoop, HatTryOnApp.processFrame.
    rewrite Hrun, Hf. cbn [negb]. rewrite ?Hrun, ?Hf.
    rewrite IH by reflexivity.
    cbn [HatTryOnApp.hatRenderer track fold_left]. reflexivity.
Qed.

Lemma silent_frames_reapply_witness :
  HatTryOnApp.run HatTryOnApp.Swallows (repeat HatTryOnApp.Silent 2)
    tracking_app
  = HatTryOnApp.Rescheduled
      {| HatTryOnApp.isRunning := true;
         HatTryOnApp.currentFaceData := Val frameA;
         HatTryOnApp.hatRenderer :=
           track (HatTryOnApp.hatRenderer tracking_app) (repeat frameA 2) |}.
Proof.
  apply (silent_frames_reapply HatTryOnApp.Swallows tracking_app frameA 2);
    reflexivity.
Defined.
